(** * Question answering over long contexts: windowing, span search, aggregation

    A shallow embedding of the question-answering cells of the notebook
    (functions [prepare_input], [pad], [postprocess],
    [find_best_answer_window], [get_best_answer], [run_question_answering])
    together with the properties stated about them.

    Conventions.
    - Python integers are [Z]; list positions are [nat] once they are known
      to be non-negative.
    - Token ids, masks and offsets are [Z]; logits and scores are real
      numbers ([R]): the properties below are about the idealised real-valued
      computation, not about rounding.
    - A Python exception is a value of [exn] carried by [result].
    - The notebook's globals ([input_size], the reserved token ids, the
      compiled model, the tokenizer module) are section variables. *)

From Stdlib Require Import String Ascii List ZArith Lia Bool Arith Reals Lra.
Import ListNotations.

Local Open Scope Z_scope.

(** ** Exceptions and results *)

Inductive exn : Type :=
| RuntimeError (msg : string)
| ValueError
| IndexError
| EOFError.

Inductive result (A : Type) : Type :=
| Ok (a : A)
| Raise (e : exn).

Arguments Ok {A} a.
Arguments Raise {A} e.

Definition rbind {A B : Type} (r : result A) (k : A -> result B) : result B :=
  match r with
  | Ok a => k a
  | Raise e => Raise e
  end.

Notation "x <- r ;; k" := (rbind r (fun x => k))
  (at level 61, r at next level, right associativity).

(** ** Python built-ins used by the notebook *)

Module Py.

(** [l[lo:hi]]: a negative bound counts from the end, and both bounds are
    clipped to the list. *)
Definition norm_index (len i : Z) : Z :=
  if i <? 0 then Z.max 0 (i + len) else Z.min i len.

Definition slice {A : Type} (l : list A) (lo hi : Z) : list A :=
  let n := Z.of_nat (length l) in
  let a := norm_index n lo in
  let b := norm_index n hi in
  firstn (Z.to_nat (b - a)) (skipn (Z.to_nat a) l).

(** [range(start, stop, step)], which raises [ValueError] on a zero step. *)
Definition range_len (start stop step : Z) : Z :=
  if 0 <? step then (stop - start + step - 1) / step
  else (start - stop - step - 1) / (- step).

Definition range (start stop step : Z) : result (list Z) :=
  if step =? 0 then Raise ValueError
  else Ok (map (fun k => start + Z.of_nat k * step)
               (seq 0 (Z.to_nat (range_len start stop step)))).

(** [[x] * n]: empty when [n <= 0]. *)
Definition times {A : Type} (x : A) (n : Z) : list A := repeat x (Z.to_nat n).

Definition len {A : Type} (l : list A) : Z := Z.of_nat (length l).

(** [l[i]] for a list: negative positions count from the end, a position
    outside the list raises [IndexError]. *)
Definition index {A : Type} (l : list A) (i : Z) : result A :=
  let j := if i <? 0 then i + len l else i in
  if j <? 0 then Raise IndexError
  else match nth_error l (Z.to_nat j) with
       | Some x => Ok x
       | None => Raise IndexError
       end.

End Py.

(** ** Windowing: [prepare_input] and [pad] *)

Record input_dict : Type := mk_input_dict {
  input_ids : list Z;
  attention_mask : list Z;
  token_type_ids : list Z;
  position_ids : option (list Z)
}.

Definition too_long_msg : string :=
  "Question is too long in comparison to input size. No space for context"%string.

Section Windowing.

Variable input_size : Z.
Variables cls_token pad_token sep_token : Z.
(** Whether the compiled model declares a [position_ids] input. *)
Variable has_position_ids : bool.

Definition pad (input_ids attention_mask token_type_ids : list Z)
  : (list Z * list Z * list Z) * Z :=
  let diff_input_size := input_size - Py.len input_ids in
  if 0 <? diff_input_size then
    ((input_ids ++ Py.times pad_token diff_input_size,
      attention_mask ++ Py.times 0 diff_input_size,
      token_type_ids ++ Py.times 0 diff_input_size),
     diff_input_size)
  else ((input_ids, attention_mask, token_type_ids), diff_input_size).

(** The body of the [for] loop of [prepare_input] for one [start]. *)
Definition prepare_window (question_tokens context_tokens : list Z)
           (context_len start : Z) : input_dict * Z * Z :=
  let question_len := Py.len question_tokens in
  let part_context_tokens := Py.slice context_tokens start (start + context_len) in
  let input_ids :=
    [cls_token] ++ question_tokens ++ [sep_token] ++ part_context_tokens ++ [sep_token] in
  let attention_mask := Py.times 1 (Py.len input_ids) in
  let token_type_ids :=
    Py.times 0 (question_len + 2) ++ Py.times 1 (Py.len part_context_tokens + 1) in
  let '((input_ids, attention_mask, token_type_ids), pad_number) :=
    pad input_ids attention_mask token_type_ids in
  let position_ids :=
    if has_position_ids
    then Some (map Z.of_nat (seq 0 (length input_ids)))
    else None in
  (mk_input_dict input_ids attention_mask token_type_ids position_ids,
   pad_number, start).

(** The generator, as the list of what it yields (or the exception its first
    step raises). *)
Definition prepare_input (question_tokens context_tokens : list Z)
  : result (list (input_dict * Z * Z)) :=
  let question_len := Py.len question_tokens in
  let context_len := input_size - question_len - 3 in
  if context_len <? 16 then Raise (RuntimeError too_long_msg)
  else
    starts <- Py.range 0 (Z.max 1 (Py.len context_tokens - context_len))
                       (context_len / 2) ;;
    Ok (map (prepare_window question_tokens context_tokens context_len) starts).

(** The context capacity of a window for a question. *)
Definition context_capacity (question_tokens : list Z) : Z :=
  input_size - Py.len question_tokens - 3.

(** What a yielded triple says about the context: where its slice starts,
    and (as [postprocess] reads it) where the slice sits in [input_ids]. *)
Definition window_start (w : input_dict * Z * Z) : Z := snd w.
Definition window_padding (w : input_dict * Z * Z) : Z := snd (fst w).
Definition window_ids (w : input_dict * Z * Z) : list Z := input_ids (fst (fst w)).

Definition window_context_start_idx (question_tokens : list Z) : Z :=
  Py.len question_tokens + 2.
Definition window_context_end_idx (w : input_dict * Z * Z) : Z :=
  input_size - window_padding w - 1.

Definition window_context_slice (question_tokens : list Z)
           (w : input_dict * Z * Z) : list Z :=
  Py.slice (window_ids w) (window_context_start_idx question_tokens)
           (window_context_end_idx w).

(** The context positions of a window are [window_start w, window_stop w). *)
Definition window_stop (question_tokens : list Z) (w : input_dict * Z * Z) : Z :=
  window_start w + Py.len (window_context_slice question_tokens w).

Definition window_has (question_tokens : list Z) (w : input_dict * Z * Z)
           (i : Z) : bool :=
  (window_start w <=? i) && (i <? window_stop question_tokens w).

Definition covered (question_tokens : list Z) (ws : list (input_dict * Z * Z))
           (i : Z) : bool :=
  existsb (fun w => window_has question_tokens w i) ws.

(** How many context positions two windows share. *)
Definition overlap (question_tokens : list Z) (w1 w2 : input_dict * Z * Z) : Z :=
  Z.max 0 (Z.min (window_stop question_tokens w1) (window_stop question_tokens w2)
           - Z.max (window_start w1) (window_start w2)).

(** The unpadded part of a window. *)
Definition unpadded (question_tokens part : list Z) : list Z :=
  [cls_token] ++ question_tokens ++ [sep_token] ++ part ++ [sep_token].

(** The starts of the emitted windows: the values the [for] loop takes. *)
Definition window_starts (question_tokens context_tokens : list Z) : list Z :=
  let context_len := context_capacity question_tokens in
  map (fun k => Z.of_nat k * (context_len / 2))
      (seq 0 (Z.to_nat (Py.range_len 0 (Z.max 1 (Py.len context_tokens - context_len))
                                    (context_len / 2)))).

End Windowing.

(** ** Span search: [get_score] and [find_best_answer_window] *)

Module Np.

(** Position-aware [map]. *)
Definition imap {A B : Type} (f : nat -> A -> B) (l : list A) : list B :=
  map (fun p => f (fst p) (snd p)) (combine (seq 0 (length l)) l).

(** [a.reshape((d, 1))] or [a.reshape((1, d))] of a one-dimensional array:
    the dimension must be the size of the array, or [-1] (inferred). *)
Definition reshape (a : list R) (d : Z) : result (list R) :=
  if (d =? -1) || (d =? Py.len a) then Ok a else Raise ValueError.

(** [np.matmul] of an [n x 1] column by a [1 x m] row. *)
Definition matmul (col row : list R) : list (list R) :=
  map (fun x => map (fun y => (x * y)%R) row) col.

(** [np.triu(m, k)] keeps the entries with [j - i >= k]; [np.tril(m, k)]
    keeps those with [j - i <= k]; the others become zero. *)
Definition triu (m : list (list R)) (k : Z) : list (list R) :=
  imap (fun i row =>
          imap (fun j x => if k <=? Z.of_nat j - Z.of_nat i then x else 0%R) row) m.

Definition tril (m : list (list R)) (k : Z) : list (list R) :=
  imap (fun i row =>
          imap (fun j x => if Z.of_nat j - Z.of_nat i <=? k then x else 0%R) row) m.

Definition flatten (m : list (list R)) : list R := concat m.

(** [a.argmax()]: the first position holding the maximum; [ValueError] on
    an empty array. *)
Fixpoint argmax_from (best_i : nat) (best : R) (i : nat) (l : list R) : nat :=
  match l with
  | [] => best_i
  | x :: t =>
      if Rlt_dec best x then argmax_from i x (S i) t
      else argmax_from best_i best (S i) t
  end.

Definition argmax (l : list R) : result nat :=
  match l with
  | [] => Raise ValueError
  | x :: t => Ok (argmax_from 0 x 1 t)
  end.

(** [m[i, j]]. *)
Definition get (m : list (list R)) (i j : nat) : R := nth j (nth i m []) 0%R.

Definition sum (l : list R) : R := fold_right Rplus 0%R l.

End Np.

(** [get_score]: the exponential of every logit over the sum of all of them.
    The logits and the scores are real numbers here; the rounding and the
    overflow of the 32-bit floats of [np.exp] are not modelled. *)
Definition get_score (logits : list R) : list R :=
  let out := map exp logits in
  let total := Np.sum out in
  map (fun x => (x / total)%R) out.

(** The masked score matrix of [find_best_answer_window]. *)
Definition masked_score_mat (col row : list R) : list (list R) :=
  let score_mat := Np.matmul col row in
  let score_mat := Np.triu score_mat 0 in
  Np.tril score_mat 16.

Definition find_best_answer_window (start_score end_score : list R)
           (context_start_idx context_end_idx : Z) : result (R * nat * nat) :=
  let context_len := context_end_idx - context_start_idx in
  col <- Np.reshape (Py.slice start_score context_start_idx context_end_idx) context_len ;;
  row <- Np.reshape (Py.slice end_score context_start_idx context_end_idx) context_len ;;
  let score_mat := masked_score_mat col row in
  k <- Np.argmax (Np.flatten score_mat) ;;
  let max_s := Nat.div k (length row) in
  let max_e := Nat.modulo k (length row) in
  let max_score := Np.get score_mat max_s max_e in
  Ok (max_score, max_s, max_e).

(** The score matrix in the words of the description: entry [(i, j)] of
    the window is the product of the start probability of context position
    [i] and the end probability of context position [j], and zero when the
    end is before the start or more than 16 positions after it. *)
Definition span_score (start_prob end_prob : list R) (context_start_idx : Z)
           (i j : nat) : R :=
  if (j <? i)%nat then 0%R
  else if (16 <? j - i)%nat then 0%R
  else (nth (Z.to_nat context_start_idx + i) start_prob 0
        * nth (Z.to_nat context_start_idx + j) end_prob 0)%R.

(** Row-major order on the positions of a matrix: lowest start first, then
    lowest end. *)
Definition row_major_before (i j s e : nat) : Prop :=
  (i < s)%nat \/ (i = s /\ (j < e)%nat).

(** The same matrix, flattened row by row, and what it means for a position
    of a flat array to be the first one holding its maximum. *)
Definition span_score_flat (start_prob end_prob : list R) (context_start_idx : Z)
           (L : nat) : list R :=
  concat (map (fun i => map (span_score start_prob end_prob context_start_idx i)
                            (seq 0 L))
              (seq 0 L)).

Definition first_max_index (l : list R) (k : nat) : Prop :=
  (k < length l)%nat
  /\ (forall j, (j < length l)%nat -> (nth j l 0 <= nth k l 0)%R)
  /\ (forall j, (j < k)%nat -> (nth j l 0 < nth k l 0)%R).

(** The number of tokens of the span from [s] to [e], both included. *)
Definition span_length (s e : nat) : nat := (e - s + 1)%nat.

(** Logits that are [hot] at one position and zero elsewhere. *)
Definition one_hot_logits (n at_pos : nat) (hot : R) : list R :=
  map (fun i => if (i =? at_pos)%nat then hot else 0%R) (seq 0 n).

(** ** Aggregation: [postprocess], [get_best_answer], [run_question_answering] *)

(** What the notebook prints (the timing line is left out). *)
Inductive output : Type :=
| PrintContext (sources : list string)
| PrintError (msg : string)
| PrintAnswer (question answer : string) (score : R).

Definition empty_context_msg : string :=
  "Error: Empty context or outside paragraphs"%string.

(** The effects of a query: the windows handed to the model so far, and the
    lines printed so far. *)
Record world : Type := mk_world {
  fed : list input_dict;
  stdout : list output
}.

Definition M (A : Type) : Type := world -> world * result A.

Definition ret {A : Type} (a : A) : M A := fun w => (w, Ok a).

Definition bind {A B : Type} (m : M A) (k : A -> M B) : M B :=
  fun w => match m w with
           | (w', Ok a) => k a w'
           | (w', Raise e) => (w', Raise e)
           end.

Definition lift {A : Type} (r : result A) : M A := fun w => (w, r).

Definition print (o : output) : M unit :=
  fun w => (mk_world (fed w) (stdout w ++ [o]), Ok tt).

Notation "x <~ m ;; k" := (bind m (fun x => k))
  (at level 61, m at next level, right associativity).

(** [max(results, key=operator.itemgetter(0))]: the first element whose score
    is the largest; [ValueError] on an empty list. *)
Fixpoint max_from (best : R * Z * Z) (l : list (R * Z * Z)) : R * Z * Z :=
  match l with
  | [] => best
  | x :: t =>
      if Rlt_dec (fst (fst best)) (fst (fst x)) then max_from x t
      else max_from best t
  end.

Definition max_by_score (results : list (R * Z * Z)) : result (R * Z * Z) :=
  match results with
  | [] => Raise ValueError
  | x :: t => Ok (max_from x t)
  end.

(** [s[lo:hi]] on a string. *)
Definition str_slice (s : string) (lo hi : Z) : string :=
  string_of_list_ascii (Py.slice (list_ascii_of_string s) lo hi).

Section Pipeline.

Variable input_size : Z.
Variables cls_token pad_token sep_token : Z.
Variable has_position_ids : bool.
(** The compiled model: the two output rows [output_s] and [output_e] for
    one input, or the exception the engine raises. *)
Variable compiled_model : input_dict -> result (list R * list R).
(** [tokens.text_to_tokens(text=..., vocab=vocab)]: token ids and their
    character ranges. *)
Variable text_to_tokens : string -> list Z * list (Z * Z).
Variable lower : string -> string.
(** [load_context]: one string for all sources. *)
Variable load_context : list string -> string.

Definition postprocess (output_start output_end : list R)
           (question_tokens : list Z) (context_tokens_start_end : list (Z * Z))
           (padding start_idx : Z) : result (R * Z * Z) :=
  let score_start := get_score output_start in
  let score_end := get_score output_end in
  let context_start_idx := Py.len question_tokens + 2 in
  let context_end_idx := input_size - padding - 1 in
  best <- find_best_answer_window score_start score_end
                                  context_start_idx context_end_idx ;;
  let '(max_score, max_start, max_end) := best in
  first <- Py.index context_tokens_start_end (Z.of_nat max_start + start_idx) ;;
  last <- Py.index context_tokens_start_end (Z.of_nat max_end + start_idx) ;;
  Ok (max_score, fst first, snd last).

(** The candidate a window contributes: the span search on the softmax of the
    model outputs over the window's context range, its two token positions
    moved by the window's start and looked up in the character offsets. *)
Definition window_candidate (question_tokens : list Z)
           (context_tokens_start_end : list (Z * Z))
           (w : input_dict * Z * Z) (candidate : R * Z * Z) : Prop :=
  exists (output_start output_end : list R) (score : R) (s e : nat)
         (first last : Z * Z),
    compiled_model (fst (fst w)) = Ok (output_start, output_end)
    /\ find_best_answer_window (get_score output_start) (get_score output_end)
                               (Py.len question_tokens + 2)
                               (input_size - snd (fst w) - 1)
       = Ok (score, s, e)
    /\ nth_error context_tokens_start_end (Z.to_nat (Z.of_nat s + snd w)) = Some first
    /\ nth_error context_tokens_start_end (Z.to_nat (Z.of_nat e + snd w)) = Some last
    /\ candidate = (score, fst first, snd last).

(** One inference call; the window is recorded in the world. *)
Definition infer (network_input : input_dict) : M (list R * list R) :=
  fun w => (mk_world (fed w ++ [network_input]) (stdout w),
            compiled_model network_input).

(** The [for] loop of [get_best_answer] over the windows the generator
    yields. *)
Fixpoint answer_loop (question_tokens : list Z)
         (context_tokens_start_end : list (Z * Z))
         (windows : list (input_dict * Z * Z)) (results : list (R * Z * Z))
  : M (list (R * Z * Z)) :=
  match windows with
  | [] => ret results
  | (network_input, padding, start_idx) :: rest =>
      out <~ infer network_input ;;
      score_start_end <~ lift (postprocess (fst out) (snd out) question_tokens
                                           context_tokens_start_end
                                           padding start_idx) ;;
      answer_loop question_tokens context_tokens_start_end rest
                  (results ++ [score_start_end])
  end.

Definition get_best_answer (question context : string) : M (string * R) :=
  let '(context_tokens, context_tokens_start_end) := text_to_tokens (lower context) in
  let '(question_tokens, _) := text_to_tokens (lower question) in
  windows <~ lift (prepare_input input_size cls_token pad_token sep_token
                                 has_position_ids question_tokens context_tokens) ;;
  results <~ answer_loop question_tokens context_tokens_start_end windows [] ;;
  answer <~ lift (max_by_score results) ;;
  ret (str_slice context (snd (fst answer)) (snd answer), fst (fst answer)).

Definition answer_and_print (question context : string) : M unit :=
  r <~ get_best_answer question context ;;
  print (PrintAnswer question (fst r) (snd r)).

(** The interactive loop: [questions] are the lines [input()] returns. *)
Fixpoint question_loop (context : string) (questions : list string) : M unit :=
  match questions with
  | [] => lift (Raise EOFError)
  | question :: rest =>
      if String.eqb question EmptyString then ret tt
      else _ <~ answer_and_print question context ;;
           question_loop context rest
  end.

(** The questions answered one after the other, each with
    [answer_and_print], up to the first one that raises: what the loop does
    with input lines none of which is empty. *)
Fixpoint answer_each (context : string) (questions : list string) : M unit :=
  match questions with
  | [] => ret tt
  | question :: rest =>
      _ <~ answer_and_print question context ;;
      answer_each context rest
  end.

Definition run_question_answering (sources : list string)
           (example_question : option string) (questions : list string) : M unit :=
  _ <~ print (PrintContext sources) ;;
  let context := load_context sources in
  if Nat.eqb (String.length context) 0 then print (PrintError empty_context_msg)
  else match example_question with
       | Some q => answer_and_print q context
       | None => question_loop context questions
       end.

End Pipeline.

(** ** Stand-ins for the collaborators, for concrete runs *)

(** A model whose two outputs are [n] zero logits. *)
Definition zero_model (n : nat) (network_input : input_dict)
  : result (list R * list R) :=
  Ok (repeat 0%R n, repeat 0%R n).

(** A tokenizer that finds no token in a blank text and two tokens, with
    the character ranges [0, 2) and [3, 5), in any other. *)
Definition blank_aware_tokenizer (text : string) : list Z * list (Z * Z) :=
  if String.eqb text " " then ([], []) else ([2054; 2003], [(0, 2); (3, 5)]).

(** A tokenizer that makes a token of every character: the token is the
    character code and its character range is [i, i + 1). *)
Definition char_tokenizer (text : string) : list Z * list (Z * Z) :=
  let chars := list_ascii_of_string text in
  (map (fun c => Z.of_nat (nat_of_ascii c)) chars,
   map (fun i => (Z.of_nat i, Z.of_nat i + 1)) (seq 0 (length chars))).

(** A context of 33 lower-case characters: with [char_tokenizer], a
    two-token question and an input size of 21 it is cut into three windows
    of 16 tokens, which start at the tokens 0, 8 and 16. *)
Definition alphabet_context : string := "abcdefghijklmnopqrstuvwxyzabcdefg"%string.

(** The window of that context which starts at the token [start]. *)
Definition alphabet_window (question_tokens : list Z) (start : Z)
  : input_dict * Z * Z :=
  prepare_window 21 101 0 102 false question_tokens
                 (fst (char_tokenizer alphabet_context)) 16 start.

(** A model for inputs of 21 entries whose start logits peak at entry 7 and
    whose end logits peak at entry 9. The peak is 1 when the context part of
    the input (entry 4 onwards) begins with the token 97, the letter a, and 2
    otherwise. *)
Definition peak_height (network_input : input_dict) : R :=
  if nth 4 (input_ids network_input) 0 =? 97 then 1%R else 2%R.

Definition peaked_model (network_input : input_dict) : result (list R * list R) :=
  let hot := peak_height network_input in
  Ok (one_hot_logits 21 7 hot, one_hot_logits 21 9 hot).

(** The score of the span from entry 7 to entry 9 under [peaked_model]: the
    product of the two softmax values at the peaks. *)
Definition peak_score (hot : R) : R :=
  (exp hot / (exp hot + 20) * (exp hot / (exp hot + 20)))%R.

(** A model for inputs of 21 entries that fails when the context part of the
    input begins with the token 105, the letter i, and gives zero logits
    otherwise. *)
Definition inference_failed : exn := RuntimeError "inference failed"%string.

Definition failing_model (network_input : input_dict) : result (list R * list R) :=
  if nth 4 (input_ids network_input) 0 =? 105 then Raise inference_failed
  else Ok (repeat 0%R 21, repeat 0%R 21).

Definition newline : string := String (ascii_of_nat 10) EmptyString.

(** [load_context] on sources that are all paragraphs (no URL). *)
Definition join_paragraphs (sources : list string) : string :=
  String.concat newline sources.

(** ** [load_context] *)

Section LoadContext.

(** [parse.urlparse(source)], as its [scheme] and [netloc] fields. *)
Variable urlparse : string -> string * string.
(** [reader.get_paragraphs(input_urls)]: the paragraphs of the pages. *)
Variable get_paragraphs : list string -> list string.

(** [all([result.scheme, result.netloc])]: both fields are non-empty. *)
Definition is_url (source : string) : bool :=
  let result := urlparse source in
  negb (String.eqb (fst result) EmptyString) && negb (String.eqb (snd result) EmptyString).

(** The [for] loop of [load_context]. *)
Fixpoint sort_sources (sources input_urls paragraphs : list string)
  : list string * list string :=
  match sources with
  | [] => (input_urls, paragraphs)
  | source :: rest =>
      if is_url source then sort_sources rest (input_urls ++ [source]) paragraphs
      else sort_sources rest input_urls (paragraphs ++ [source])
  end.

Definition load_context (sources : list string) : string :=
  let '(input_urls, paragraphs) := sort_sources sources [] [] in
  let paragraphs := paragraphs ++ get_paragraphs input_urls in
  String.concat newline paragraphs.

End LoadContext.

(** ** Vehicle recognition: [vehicle_recognition] *)

Module Vehicle.

Definition colors : list string :=
  ["White"; "Gray"; "Yellow"; "Red"; "Green"; "Blue"; "Black"]%string.
Definition types : list string := ["Car"; "Bus"; "Truck"; "Van"]%string.

Section Recognition.

Variable image : Type.
(** [cv2.resize], the transposition and [np.expand_dims]. *)
Variable prepare_image : image -> Z * Z -> result image.
(** The recognition model: its outputs 0 (types) and 1 (colors), flattened. *)
Variable compiled_model_re : image -> result (list R * list R).

Definition vehicle_recognition (input_size : Z * Z) (raw_image : image)
  : result (string * string) :=
  input_image_re <- prepare_image raw_image input_size ;;
  out <- compiled_model_re input_image_re ;;
  let predict_colors := snd out in
  out <- compiled_model_re input_image_re ;;
  let predict_types := fst out in
  color <- Np.argmax predict_colors ;;
  attr_color <- Py.index colors (Z.of_nat color) ;;
  type <- Np.argmax predict_types ;;
  attr_type <- Py.index types (Z.of_nat type) ;;
  Ok (attr_color, attr_type).

End Recognition.

End Vehicle.

(** * Properties *)

(** ** Facts about the Python built-ins *)

Lemma slice_firstn_skipn {A : Type} (l : list A) (lo hi : Z) :
  0 <= lo -> 0 <= hi ->
  Py.slice l lo hi = firstn (Z.to_nat hi - Z.to_nat lo) (skipn (Z.to_nat lo) l).
Proof.
  intros Hlo Hhi. unfold Py.slice, Py.norm_index.
  destruct (Z.ltb_spec lo 0) as [?|_]; [lia|].
  destruct (Z.ltb_spec hi 0) as [?|_]; [lia|].
  destruct (Z_le_gt_dec (Z.of_nat (length l)) lo) as [Hbig|Hsmall].
  - rewrite !skipn_all2 by lia. now rewrite !firstn_nil.
  - rewrite (Z.min_l lo) by lia.
    destruct (Z_le_gt_dec hi (Z.of_nat (length l))) as [Hin|Hout].
    + rewrite Z.min_l by lia. f_equal. lia.
    + rewrite Z.min_r by lia.
      rewrite !firstn_all2; [reflexivity | |]; rewrite length_skipn; lia.
Qed.

Lemma slice_length {A : Type} (l : list A) (lo hi : Z) :
  0 <= lo -> 0 <= hi ->
  Py.len (Py.slice l lo hi) = Z.max 0 (Z.min hi (Py.len l) - Z.min lo (Py.len l)).
Proof.
  intros Hlo Hhi. rewrite slice_firstn_skipn by assumption.
  unfold Py.len. rewrite length_firstn, length_skipn. lia.
Qed.

Lemma slice_middle {A : Type} (a b c : list A) :
  firstn (length b) (skipn (length a) (a ++ b ++ c)) = b.
Proof.
  rewrite skipn_app, skipn_all, Nat.sub_diag. simpl.
  rewrite firstn_app, firstn_all, Nat.sub_diag. simpl. apply app_nil_r.
Qed.

(** For a positive step, [range(0, stop, step)] holds the multiples of the
    step below [stop], in increasing order. *)
Lemma range_len_bounds (stop step : Z) :
  0 < step -> 0 < stop ->
  let n := Py.range_len 0 stop step in
  0 < n /\ (n - 1) * step < stop <= n * step.
Proof.
  intros Hstep Hstop n. subst n. unfold Py.range_len.
  destruct (Z.ltb_spec 0 step) as [_|?]; [|lia].
  replace (stop - 0 + step - 1) with (stop + step - 1) by lia.
  pose proof (Z.mul_div_le (stop + step - 1) step Hstep).
  pose proof (Z.mul_succ_div_gt (stop + step - 1) step Hstep).
  nia.
Qed.

Lemma range_pos (stop step : Z) :
  0 < step ->
  Py.range 0 stop step =
  Ok (map (fun k => Z.of_nat k * step) (seq 0 (Z.to_nat (Py.range_len 0 stop step)))).
Proof.
  intros Hstep. unfold Py.range.
  destruct (Z.eqb_spec step 0) as [?|_]; [lia|]. reflexivity.
Qed.

Lemma nth_error_range (stop step : Z) (k : nat) (x : Z) (l : list Z) :
  0 < step -> Py.range 0 stop step = Ok l ->
  nth_error l k = Some x ->
  x = Z.of_nat k * step /\ Z.of_nat k < Py.range_len 0 stop step.
Proof.
  intros Hstep Hr Hk. rewrite range_pos in Hr by assumption.
  injection Hr as <-.
  pose proof (nth_error_Some (map (fun k => Z.of_nat k * step)
     (seq 0 (Z.to_nat (Py.range_len 0 stop step)))) k) as Hlen.
  rewrite Hk, length_map, length_seq in Hlen.
  assert (Hlt : (k < Z.to_nat (Py.range_len 0 stop step))%nat)
    by (apply Hlen; discriminate).
  rewrite nth_error_map, nth_error_seq in Hk.
  destruct (Nat.ltb_spec k (Z.to_nat (Py.range_len 0 stop step))) as [_|?]; [|lia].
  simpl in Hk. injection Hk as <-. split; lia.
Qed.

(** ** The built-ins on small inputs *)

Example range_by_three : Py.range 0 10 3 = Ok [0; 3; 6; 9].
Proof. reflexivity. Qed.

Example range_single_start : Py.range 0 (Z.max 1 (400 - 360)) 180 = Ok [0].
Proof. reflexivity. Qed.

Example range_downwards : Py.range 5 0 (-2) = Ok [5; 3; 1].
Proof. reflexivity. Qed.

Example range_zero_step : Py.range 0 5 0 = Raise ValueError.
Proof. reflexivity. Qed.

Example slice_is_clipped : Py.slice [1; 2; 3; 4; 5] 3 10 = [4; 5].
Proof. reflexivity. Qed.

Example slice_from_the_end : Py.slice [1; 2; 3; 4; 5] 0 (-1) = [1; 2; 3; 4].
Proof. reflexivity. Qed.

Example index_out_of_range : Py.index [1; 2; 3] 3 = Raise IndexError.
Proof. reflexivity. Qed.

Example pad_to_eight :
  pad 8 0 [101; 7; 102; 9; 102] [1; 1; 1; 1; 1] [0; 0; 0; 1; 1]
  = (([101; 7; 102; 9; 102; 0; 0; 0], [1; 1; 1; 1; 1; 0; 0; 0], [0; 0; 0; 1; 1; 0; 0; 0]), 3).
Proof. reflexivity. Qed.

Example masked_two_by_two (a b c d : R) :
  masked_score_mat [a; b] [c; d] = [[a * c; a * d]; [0; b * d]]%R.
Proof. reflexivity. Qed.

Example argmax_takes_the_first_maximum : Np.argmax [1; 3; 3; 2]%R = Ok 1%nat.
Proof.
  unfold Np.argmax, Np.argmax_from.
  repeat (destruct (Rlt_dec _ _); try lra). reflexivity.
Qed.

Example argmax_of_nothing : Np.argmax [] = Raise ValueError.
Proof. reflexivity. Qed.

(** ** Windowing *)

Section WindowingFacts.

Variable input_size : Z.
Variables cls_token pad_token sep_token : Z.
Variable has_position_ids : bool.

Let prepare_input' := prepare_input input_size cls_token pad_token sep_token has_position_ids.
Let prepare_window' := prepare_window input_size cls_token pad_token sep_token has_position_ids.
Let capacity' := context_capacity input_size.
Let unpadded' := unpadded cls_token sep_token.
Let window_starts' := window_starts input_size.

Lemma unpadded_len (q part : list Z) :
  Py.len (unpadded' q part) = Py.len q + Py.len part + 3.
Proof. subst unpadded'. unfold unpadded, Py.len.
  repeat (rewrite length_app; simpl). lia.
Qed.

Lemma part_len_le (ctx : list Z) (c start : Z) :
  0 <= start -> 0 <= c ->
  0 <= Py.len (Py.slice ctx start (start + c)) <= c.
Proof.
  intros Hs Hc. rewrite slice_length by lia. unfold Py.len. lia.
Qed.

(** What [prepare_window'] yields, with the padding written out. *)
Lemma prepare_window_eq (q ctx : list Z) (start : Z) :
  0 <= start -> 0 <= capacity' q ->
  let part := Py.slice ctx start (start + capacity' q) in
  let pad_number := capacity' q - Py.len part in
  let ids := unpadded' q part ++ Py.times pad_token pad_number in
  prepare_window' q ctx (capacity' q) start =
  (mk_input_dict ids
     (Py.times 1 (Py.len q + Py.len part + 3) ++ Py.times 0 pad_number)
     (Py.times 0 (Py.len q + 2) ++ Py.times 1 (Py.len part + 1) ++ Py.times 0 pad_number)
     (if has_position_ids then Some (map Z.of_nat (seq 0 (length ids))) else None),
   pad_number, start).
Proof.
  intros Hs Hc part pad_number ids.
  pose proof (part_len_le ctx (capacity' q) start Hs Hc) as Hpart.
  fold part in Hpart.
  subst prepare_window'. unfold prepare_window, pad. fold part.
  change ([cls_token] ++ q ++ [sep_token] ++ part ++ [sep_token]) with (unpadded' q part).
  rewrite unpadded_len.
  assert (Hdiff : input_size - (Py.len q + Py.len part + 3) = pad_number).
  { subst pad_number capacity'. unfold context_capacity. lia. }
  rewrite Hdiff.
  destruct (Z.ltb_spec 0 pad_number) as [Hpos|Hzero].
  - subst ids. now rewrite <- app_assoc.
  - assert (Hz : pad_number = 0) by (subst pad_number; lia).
    subst ids. rewrite Hz. unfold Py.times at 3 4 5. simpl. now rewrite !app_nil_r.
Qed.

Lemma half_capacity_pos (q : list Z) : 16 <= capacity' q -> 8 <= capacity' q / 2.
Proof. intros H. apply Z.div_le_lower_bound; lia. Qed.

Lemma prepare_input_ok (q ctx : list Z) :
  16 <= capacity' q ->
  prepare_input' q ctx = Ok (map (prepare_window' q ctx (capacity' q)) (window_starts' q ctx)).
Proof.
  intros Hc. pose proof (half_capacity_pos q Hc) as Hh.
  subst prepare_input'. unfold prepare_input.
  change (input_size - Py.len q - 3) with (capacity' q).
  destruct (Z.ltb_spec (capacity' q) 16) as [?|_]; [lia|].
  rewrite range_pos by lia. reflexivity.
Qed.

Lemma prepare_input_raise (q ctx : list Z) :
  capacity' q < 16 ->
  prepare_input' q ctx = Raise (RuntimeError too_long_msg).
Proof.
  intros Hc. subst prepare_input'. unfold prepare_input.
  change (input_size - Py.len q - 3) with (capacity' q).
  destruct (Z.ltb_spec (capacity' q) 16) as [_|?]; [reflexivity|lia].
Qed.

Lemma window_starts_nth (q ctx : list Z) (k : nat) (s : Z) :
  16 <= capacity' q ->
  nth_error (window_starts' q ctx) k = Some s ->
  s = Z.of_nat k * (capacity' q / 2) /\
  (s = 0 \/ s < Py.len ctx - capacity' q).
Proof.
  intros Hc Hk. pose proof (half_capacity_pos q Hc) as Hh.
  destruct (nth_error_range (Z.max 1 (Py.len ctx - capacity' q)) (capacity' q / 2)
              k s (window_starts' q ctx)) as [Hs Hlt]; try lia; try assumption.
  { apply range_pos. lia. }
  split; [assumption|].
  pose proof (range_len_bounds (Z.max 1 (Py.len ctx - capacity' q)) (capacity' q / 2))
    as Hb. simpl in Hb. destruct Hb as [_ [Hb _]]; try lia.
  destruct k as [|k]; [left; lia|right]. nia.
Qed.

Lemma window_starts_nonempty (q ctx : list Z) :
  16 <= capacity' q -> exists rest, window_starts' q ctx = 0 :: rest.
Proof.
  intros Hc. pose proof (half_capacity_pos q Hc) as Hh.
  pose proof (range_len_bounds (Z.max 1 (Py.len ctx - capacity' q)) (capacity' q / 2))
    as Hb. simpl in Hb. destruct Hb as [Hb _]; try lia.
  subst window_starts' capacity'. unfold window_starts. cbv zeta.
  destruct (Z.to_nat _) as [|n] eqn:E; [lia|].
  simpl. eexists. reflexivity.
Qed.

(** The context slice read back from an emitted window is the slice of the
    context it was built from. *)
Lemma window_context_slice_eq (q ctx : list Z) (start : Z) :
  0 <= start -> 0 <= capacity' q ->
  window_context_slice input_size q (prepare_window' q ctx (capacity' q) start)
  = Py.slice ctx start (start + capacity' q).
Proof.
  intros Hs Hc. rewrite prepare_window_eq by assumption.
  pose proof (part_len_le ctx (capacity' q) start Hs Hc) as Hpart.
  set (part := Py.slice ctx start (start + capacity' q)) in *.
  unfold window_context_slice, window_ids, window_context_end_idx,
    window_context_start_idx, window_padding. simpl fst. simpl snd. simpl input_ids.
  assert (He : input_size - (capacity' q - Py.len part) - 1 = Py.len q + 2 + Py.len part).
  { subst capacity'. unfold context_capacity. lia. }
  rewrite He.
  assert (Hl : forall pads,
             unpadded' q part ++ pads
             = ([cls_token] ++ q ++ [sep_token]) ++ part ++ ([sep_token] ++ pads)).
  { intros pads. subst unpadded'. unfold unpadded.
    simpl. repeat (rewrite <- app_assoc; simpl). reflexivity. }
  change (Py.slice (unpadded' q part ++ Py.times pad_token (capacity' q - Py.len part))
                   (Py.len q + 2) (Py.len q + 2 + Py.len part) = part).
  rewrite Hl. unfold Py.len in *.
  rewrite slice_firstn_skipn by lia.
  replace (Z.to_nat (Z.of_nat (length q) + 2 + Z.of_nat (length part))
           - Z.to_nat (Z.of_nat (length q) + 2))%nat with (length part) by lia.
  replace (Z.to_nat (Z.of_nat (length q) + 2)) with (length ([cls_token] ++ q ++ [sep_token]))
    by (simpl; rewrite length_app; simpl; lia).
  apply slice_middle.
Qed.

Lemma nth_prepare_input (q ctx : list Z) (ws : list (input_dict * Z * Z))
      (k : nat) (w : input_dict * Z * Z) :
  prepare_input' q ctx = Ok ws -> nth_error ws k = Some w ->
  16 <= capacity' q /\
  window_start w = Z.of_nat k * (capacity' q / 2) /\
  (window_start w = 0 \/ window_start w < Py.len ctx - capacity' q) /\
  w = prepare_window' q ctx (capacity' q) (window_start w).
Proof.
  intros Hp Hk.
  destruct (Z_lt_ge_dec (capacity' q) 16) as [Hlt|Hge].
  { rewrite prepare_input_raise in Hp by assumption. discriminate. }
  split; [lia|].
  rewrite prepare_input_ok in Hp by lia. injection Hp as <-.
  rewrite nth_error_map in Hk.
  destruct (nth_error (window_starts' q ctx) k) as [s|] eqn:Es; [|discriminate].
  simpl in Hk. injection Hk as <-.
  destruct (window_starts_nth q ctx k s) as [Hs Hb]; [lia|assumption|].
  assert (Hst : window_start (prepare_window' q ctx (capacity' q) s) = s).
  { pose proof (half_capacity_pos q ltac:(lia)).
    rewrite prepare_window_eq by nia. reflexivity. }
  rewrite Hst. repeat split; assumption.
Qed.

Lemma In_prepare_input (q ctx : list Z) (ws : list (input_dict * Z * Z))
      (w : input_dict * Z * Z) :
  prepare_input' q ctx = Ok ws -> In w ws ->
  16 <= capacity' q /\
  exists k : nat,
    nth_error ws k = Some w /\
    window_start w = Z.of_nat k * (capacity' q / 2) /\
    (window_start w = 0 \/ window_start w < Py.len ctx - capacity' q) /\
    w = prepare_window' q ctx (capacity' q) (window_start w).
Proof.
  intros Hp Hin. apply In_nth_error in Hin. destruct Hin as [k Hk].
  destruct (nth_prepare_input q ctx ws k w Hp Hk) as (Hc & Hs & Hb & Hw).
  split; [assumption|]. exists k. repeat split; assumption.
Qed.

(** The context positions of an emitted window: it starts at a non-negative
    position and stops where the capacity' or the context ends. *)
Lemma window_stop_eq (q ctx : list Z) (ws : list (input_dict * Z * Z))
      (k : nat) (w : input_dict * Z * Z) :
  prepare_input' q ctx = Ok ws -> nth_error ws k = Some w ->
  0 <= window_start w /\
  window_stop input_size q w
  = window_start w
    + Z.max 0 (Z.min (window_start w + capacity' q) (Py.len ctx)
               - Z.min (window_start w) (Py.len ctx)).
Proof.
  intros Hp Hk.
  destruct (nth_prepare_input q ctx ws k w Hp Hk) as (Hc & Hs & Hb & Hw).
  pose proof (half_capacity_pos q Hc) as Hh.
  assert (H0 : 0 <= window_start w) by nia.
  split; [assumption|].
  unfold window_stop. rewrite Hw at 2.
  rewrite window_context_slice_eq by lia.
  rewrite slice_length by lia. reflexivity.
Qed.

(** C2: [prepare_input'] raises its input-too-long error exactly when
    [input_size - len(question_tokens) - 3 < 16]; otherwise, whatever the
    context is, it raises nothing and yields at least one window. *)
Theorem prepare_input_raises_iff_too_long (q ctx : list Z) :
  (prepare_input' q ctx = Raise (RuntimeError too_long_msg)
   <-> input_size - Py.len q - 3 < 16)
  /\ ((exists w ws, prepare_input' q ctx = Ok (w :: ws))
      <-> 16 <= input_size - Py.len q - 3)
  /\ ((exists e, prepare_input' q ctx = Raise e)
      <-> input_size - Py.len q - 3 < 16).
Proof.
  change (input_size - Py.len q - 3) with (capacity' q).
  destruct (Z_lt_ge_dec (capacity' q) 16) as [Hlt|Hge].
  - pose proof (prepare_input_raise q ctx Hlt) as Hr.
    repeat split; intros; try lia; try assumption.
    + destruct H as (w & ws & H). congruence.
    + eexists. eassumption.
  - pose proof (prepare_input_ok q ctx ltac:(lia)) as Ho.
    destruct (window_starts_nonempty q ctx ltac:(lia)) as [rest Hrest].
    rewrite Hrest in Ho. simpl in Ho.
    repeat split; intros; try lia.
    + congruence.
    + do 2 eexists. eassumption.
    + destruct H as (e & H). congruence.
Qed.

(** C6: every emitted window holds
    [[CLS] + question_tokens + [SEP] + context_slice + [SEP]] followed by pad
    tokens up to exactly [input_size] entries; its attention mask is 1 on the
    unpadded' positions and 0 on the padding; its segment mask is 0 on
    [[CLS] + question + [SEP]], 1 on [context_slice + [SEP]], 0 on the
    padding. *)
Theorem prepare_input_window_layout (q ctx : list Z)
        (ws : list (input_dict * Z * Z)) (w : input_dict * Z * Z) :
  prepare_input' q ctx = Ok ws -> In w ws ->
  let context_slice :=
    Py.slice ctx (window_start w) (window_start w + context_capacity input_size q) in
  let real := length (unpadded' q context_slice) in
  input_ids (fst (fst w))
  = ([cls_token] ++ q ++ [sep_token] ++ context_slice ++ [sep_token])
      ++ repeat pad_token (Z.to_nat input_size - real)
  /\ Py.len (input_ids (fst (fst w))) = input_size
  /\ Py.len (attention_mask (fst (fst w))) = input_size
  /\ Py.len (token_type_ids (fst (fst w))) = input_size
  /\ (forall i : nat, (i < Z.to_nat input_size)%nat ->
      nth_error (input_ids (fst (fst w))) i
      = if (i <? real)%nat then nth_error (unpadded' q context_slice) i
        else Some pad_token)
  /\ (forall i : nat, (i < Z.to_nat input_size)%nat ->
      nth_error (attention_mask (fst (fst w))) i
      = Some (if (i <? real)%nat then 1 else 0))
  /\ (forall i : nat, (i < Z.to_nat input_size)%nat ->
      nth_error (token_type_ids (fst (fst w))) i
      = Some (if (i <? length q + 2)%nat then 0
              else if (i <? real)%nat then 1 else 0)).
Proof.
  intros Hp Hin context_slice real.
  destruct (In_prepare_input q ctx ws w Hp Hin) as (Hc & k & _ & Hk & _ & Hw).
  assert (Hs : 0 <= window_start w).
  { pose proof (half_capacity_pos q Hc). nia. }
  rewrite prepare_window_eq in Hw by lia.
  fold capacity' in context_slice. fold context_slice in Hw.
  pose proof (part_len_le ctx (capacity' q) (window_start w) Hs ltac:(lia)) as Hpart.
  fold context_slice in Hpart.
  pose proof (unpadded_len q context_slice) as Hreal.
  fold real in Hreal.
  assert (HcapQ : capacity' q = input_size - Py.len q - 3) by reflexivity.
  unfold Py.len in *.
  set (pad_number := capacity' q - Z.of_nat (length context_slice)) in *.
  assert (Hpad : Z.to_nat pad_number = (Z.to_nat input_size - real)%nat) by lia.
  rewrite Hw. simpl fst. simpl input_ids. simpl attention_mask. simpl token_type_ids.
  change (cls_token :: (q ++ sep_token :: context_slice ++ [sep_token])
          ++ Py.times pad_token pad_number)
    with (unpadded' q context_slice ++ Py.times pad_token pad_number).
  change (cls_token :: q ++ sep_token :: context_slice ++ [sep_token])
    with (unpadded' q context_slice).
  unfold Py.times. rewrite Hpad.
  repeat split.
  - rewrite length_app, repeat_length. lia.
  - rewrite length_app, !repeat_length. lia.
  - rewrite !length_app, !repeat_length. lia.
  - intros i Hi. destruct (Nat.ltb_spec i real) as [Hlt|Hge].
    + apply nth_error_app1. assumption.
    + rewrite nth_error_app2 by assumption. apply nth_error_repeat. fold real. lia.
  - intros i Hi. destruct (Nat.ltb_spec i real) as [Hlt|Hge].
    + rewrite nth_error_app1 by (rewrite repeat_length; lia).
      apply nth_error_repeat. lia.
    + rewrite nth_error_app2 by (rewrite repeat_length; lia).
      apply nth_error_repeat. rewrite repeat_length. lia.
  - intros i Hi. destruct (Nat.ltb_spec i (length q + 2)) as [Hq|Hq].
    + rewrite nth_error_app1 by (rewrite repeat_length; lia).
      apply nth_error_repeat. lia.
    + rewrite nth_error_app2 by (rewrite repeat_length; lia).
      rewrite repeat_length.
      destruct (Nat.ltb_spec i real) as [Hlt|Hge].
      * rewrite nth_error_app1 by (rewrite repeat_length; lia).
        apply nth_error_repeat. lia.
      * rewrite nth_error_app2 by (rewrite repeat_length; lia).
        apply nth_error_repeat. rewrite repeat_length. lia.
Qed.

(** C5, as the code has it: any two adjacent emitted windows are both full
    (each holds [context_capacity] context tokens) and share exactly
    [context_capacity - context_capacity // 2] context positions, which is
    [context_capacity // 2] for an even capacity' and one more for an odd
    one. *)
Theorem adjacent_windows_overlap (q ctx : list Z)
        (ws : list (input_dict * Z * Z)) (k : nat) (w1 w2 : input_dict * Z * Z) :
  prepare_input' q ctx = Ok ws ->
  nth_error ws k = Some w1 -> nth_error ws (S k) = Some w2 ->
  let c := context_capacity input_size q in
  window_start w2 = window_start w1 + c / 2
  /\ window_stop input_size q w1 = window_start w1 + c
  /\ window_stop input_size q w2 = window_start w2 + c
  /\ overlap input_size q w1 w2 = c - c / 2.
Proof.
  intros Hp H1 H2 c. fold capacity' in c.
  destruct (nth_prepare_input q ctx ws k w1 Hp H1) as (Hc & Hs1 & Hb1 & _).
  destruct (nth_prepare_input q ctx ws (S k) w2 Hp H2) as (_ & Hs2 & Hb2 & _).
  destruct (window_stop_eq q ctx ws k w1 Hp H1) as [Hn1 He1].
  destruct (window_stop_eq q ctx ws (S k) w2 Hp H2) as [Hn2 He2].
  pose proof (half_capacity_pos q Hc) as Hh.
  pose proof (Z.mul_div_le (capacity' q) 2 ltac:(lia)) as Hhalf.
  fold c in Hc, Hs1, Hb1, Hs2, Hb2, He1, He2, Hh, Hhalf.
  unfold overlap. rewrite He1, He2. fold c.
  assert (Hstep : window_start w2 = window_start w1 + c / 2) by lia.
  assert (Hin : window_start w2 < Py.len ctx - c) by nia.
  repeat split; lia.
Qed.

End WindowingFacts.

(** The half-overlap is not always [context_capacity // 2]: with an odd
    capacity, adjacent full windows share one position more.  Here
    [input_size = 384] and a question of 20 tokens give a capacity of 361;
    the first two of the four windows over 1000 context tokens share 181
    positions, and [361 // 2 = 180]. *)
Lemma overlap_odd_capacity :
  let q := repeat 7 20 in
  let ctx := map Z.of_nat (seq 1000 1000) in
  let w1 := prepare_window 384 101 0 102 true q ctx 361 0 in
  let w2 := prepare_window 384 101 0 102 true q ctx 361 180 in
  let w3 := prepare_window 384 101 0 102 true q ctx 361 360 in
  let w4 := prepare_window 384 101 0 102 true q ctx 361 540 in
  prepare_input 384 101 0 102 true q ctx = Ok [w1; w2; w3; w4]
  /\ overlap 384 q w1 w2 = 181
  /\ context_capacity 384 q / 2 = 180
  /\ overlap 384 q w1 w2 <> context_capacity 384 q / 2.
Proof.
  vm_compute. repeat split; try reflexivity. discriminate.
Qed.

Lemma adjacent_windows_overlap_witness :
  let q := repeat 7 20 in
  let ctx := map Z.of_nat (seq 1000 1000) in
  let w1 := prepare_window 384 101 0 102 true q ctx 361 0 in
  let w2 := prepare_window 384 101 0 102 true q ctx 361 180 in
  overlap 384 q w1 w2 = 361 - 361 / 2.
Proof.
  intros q ctx w1 w2.
  refine (proj2 (proj2 (proj2
    (adjacent_windows_overlap 384 101 0 102 true q ctx
       (map (prepare_window 384 101 0 102 true q ctx 361) [0; 180; 360; 540])
       0%nat w1 w2 _ _ _)))); vm_compute; reflexivity.
Defined.

Lemma prepare_input_window_layout_witness :
  let q := [2054; 2003] in
  let ctx := [1037; 4937; 2003; 2312] in
  let w := prepare_window 384 101 0 102 true q ctx 379 0 in
  Py.len (input_ids (fst (fst w))) = 384.
Proof.
  intros q ctx w.
  refine (proj1 (proj2
    (prepare_input_window_layout 384 101 0 102 true q ctx [w] w _ _))).
  - vm_compute. reflexivity.
  - left. reflexivity.
Defined.

(** C1 fails on the code: the loop stops at
    [max(1, len(context_tokens) - context_len)], so the tokens after the last
    window are in no window.  With [input_size = 384], a question of 21
    tokens (capacity 360) and 400 context tokens, the only window is
    [0, 360): positions 360 to 399 are not covered. *)
Theorem prepare_input_skips_tail :
  let q := repeat 7 21 in
  let ctx := map Z.of_nat (seq 1000 400) in
  let w := prepare_window 384 101 0 102 true q ctx 360 0 in
  prepare_input 384 101 0 102 true q ctx = Ok [w]
  /\ 16 <= context_capacity 384 q
  /\ window_start w = 0
  /\ window_stop 384 q w = 360
  /\ window_context_slice 384 q w = firstn 360 ctx
  /\ Py.len ctx = 400
  /\ forallb (fun i => negb (covered 384 q [w] (Z.of_nat i))) (seq 360 40) = true.
Proof.
  vm_compute. repeat split; try reflexivity. discriminate.
Qed.

(** ** Span search *)

(** *** [argmax] returns the first position of the maximum *)

Lemma argmax_from_spec (t : list R) :
  forall (pre : list R) (bi : nat) (b : R),
    (bi < length pre)%nat -> nth bi pre 0%R = b ->
    (forall j, (j < length pre)%nat -> (nth j pre 0 <= b)%R) ->
    (forall j, (j < bi)%nat -> (nth j pre 0 < b)%R) ->
    let k := Np.argmax_from bi b (length pre) t in
    (k < length (pre ++ t))%nat /\
    (forall j, (j < length (pre ++ t))%nat ->
               (nth j (pre ++ t) 0 <= nth k (pre ++ t) 0)%R) /\
    (forall j, (j < k)%nat -> (nth j (pre ++ t) 0 < nth k (pre ++ t) 0)%R).
Proof.
  induction t as [|x t IH]; intros pre bi b Hbi Hb Hmax Hfirst; simpl.
  - rewrite app_nil_r. rewrite Hb. repeat split; auto.
  - assert (Hlen : length (pre ++ [x]) = S (length pre))
      by (rewrite length_app; simpl; lia).
    assert (Hold : forall j, (j < length pre)%nat ->
                             nth j (pre ++ [x]) 0%R = nth j pre 0%R)
      by (intros j Hj; apply app_nth1; exact Hj).
    assert (Hnew : nth (length pre) (pre ++ [x]) 0%R = x) by apply nth_middle.
    replace (pre ++ x :: t) with ((pre ++ [x]) ++ t)
      by (rewrite <- app_assoc; reflexivity).
    rewrite <- Hlen.
    destruct (Rlt_dec b x) as [Hlt|Hge].
    + apply IH.
      * lia.
      * exact Hnew.
      * intros j Hj. destruct (Nat.eq_dec j (length pre)) as [->|Hne].
        -- rewrite Hnew. apply Rle_refl.
        -- rewrite Hold by lia. apply Rlt_le.
           apply Rle_lt_trans with b; [apply Hmax; lia | exact Hlt].
      * intros j Hj. rewrite Hold by lia.
        apply Rle_lt_trans with b; [apply Hmax; lia | exact Hlt].
    + apply IH.
      * lia.
      * rewrite Hold by lia. exact Hb.
      * intros j Hj. destruct (Nat.eq_dec j (length pre)) as [->|Hne].
        -- rewrite Hnew. apply Rnot_lt_le. exact Hge.
        -- rewrite Hold by lia. apply Hmax. lia.
      * intros j Hj. rewrite Hold by lia. apply Hfirst. exact Hj.
Qed.

Lemma argmax_spec (l : list R) :
  l <> [] ->
  exists k,
    Np.argmax l = Ok k /\ (k < length l)%nat /\
    (forall j, (j < length l)%nat -> (nth j l 0 <= nth k l 0)%R) /\
    (forall j, (j < k)%nat -> (nth j l 0 < nth k l 0)%R).
Proof.
  destruct l as [|x t]; [congruence|]. intros _.
  exists (Np.argmax_from 0 x 1 t). split; [reflexivity|].
  apply (argmax_from_spec t [x] 0%nat x); simpl; auto.
  - intros [|j] Hj; [apply Rle_refl | lia].
  - intros j Hj. lia.
Qed.

(** *** Shape and entries of the masked score matrix *)

Lemma nth_error_imap_from {A B : Type} (f : nat -> A -> B) (l : list A) :
  forall (s i : nat),
    nth_error (map (fun p => f (fst p) (snd p)) (combine (seq s (length l)) l)) i
    = option_map (f (s + i)%nat) (nth_error l i).
Proof.
  induction l as [|x l IH]; intros s i; simpl.
  - destruct i; reflexivity.
  - destruct i as [|i]; simpl.
    + now rewrite Nat.add_0_r.
    + rewrite IH. now rewrite Nat.add_succ_r.
Qed.

Lemma nth_error_imap {A B : Type} (f : nat -> A -> B) (l : list A) (i : nat) :
  nth_error (Np.imap f l) i = option_map (f i) (nth_error l i).
Proof. unfold Np.imap. now rewrite nth_error_imap_from. Qed.

Lemma length_imap {A B : Type} (f : nat -> A -> B) (l : list A) :
  length (Np.imap f l) = length l.
Proof.
  unfold Np.imap. rewrite length_map, length_combine, length_seq. lia.
Qed.

Lemma nth_imap {A B : Type} (f : nat -> A -> B) (l : list A) (i : nat) (d : A) (d' : B) :
  (i < length l)%nat -> nth i (Np.imap f l) d' = f i (nth i l d).
Proof.
  intros Hi. apply nth_error_nth. rewrite nth_error_imap.
  rewrite (nth_error_nth' l d Hi). reflexivity.
Qed.

Lemma masked_length (col row : list R) :
  length (masked_score_mat col row) = length col.
Proof.
  unfold masked_score_mat, Np.tril, Np.triu, Np.matmul.
  now rewrite !length_imap, length_map.
Qed.

Lemma masked_row (col row : list R) (i : nat) :
  (i < length col)%nat ->
  nth i (masked_score_mat col row) []
  = Np.imap (fun j x => if Z.of_nat j - Z.of_nat i <=? 16 then x else 0%R)
      (Np.imap (fun j x => if 0 <=? Z.of_nat j - Z.of_nat i then x else 0%R)
         (map (fun y => (nth i col 0 * y)%R) row)).
Proof.
  intros Hi. unfold masked_score_mat, Np.tril, Np.triu, Np.matmul.
  rewrite (nth_imap _ _ i [] []) by (now rewrite length_imap, length_map).
  f_equal. rewrite (nth_imap _ _ i [] []) by (now rewrite length_map).
  f_equal.
  rewrite (nth_indep _ [] ((fun x => map (fun y => (x * y)%R) row) 0%R))
    by (now rewrite length_map).
  apply (map_nth (fun x => map (fun y => (x * y)%R) row)).
Qed.

Lemma masked_row_length (col row : list R) (i : nat) :
  (i < length col)%nat ->
  length (nth i (masked_score_mat col row) []) = length row.
Proof.
  intros Hi. rewrite masked_row by assumption.
  now rewrite !length_imap, length_map.
Qed.

Lemma masked_get (col row : list R) (i j : nat) :
  (i < length col)%nat -> (j < length row)%nat ->
  Np.get (masked_score_mat col row) i j
  = if (j <? i)%nat then 0%R
    else if (16 <? j - i)%nat then 0%R
    else (nth i col 0 * nth j row 0)%R.
Proof.
  intros Hi Hj. unfold Np.get. rewrite masked_row by assumption.
  rewrite (nth_imap _ _ j 0%R 0%R) by (now rewrite length_imap, length_map).
  rewrite (nth_imap _ _ j 0%R 0%R) by (now rewrite length_map).
  replace (nth j (map (fun y : R => (nth i col 0 * y)%R) row) 0%R)
    with (nth i col 0 * nth j row 0)%R.
  2:{ symmetry. rewrite (nth_indep _ 0%R ((fun y => (nth i col 0 * y)%R) 0%R))
        by (now rewrite length_map).
      apply map_nth. }
  destruct (Nat.ltb_spec j i) as [Hlt|Hge].
  - destruct (Z.leb_spec 0 (Z.of_nat j - Z.of_nat i)) as [?|_]; [lia|].
    destruct (Z.of_nat j - Z.of_nat i <=? 16); reflexivity.
  - destruct (Z.leb_spec 0 (Z.of_nat j - Z.of_nat i)) as [_|?]; [|lia].
    destruct (Nat.ltb_spec 16 (j - i)) as [Hlong|Hshort];
      destruct (Z.leb_spec (Z.of_nat j - Z.of_nat i) 16); try lia; reflexivity.
Qed.

Lemma concat_rectangular (m : nat) (M : list (list R)) :
  (forall i, (i < length M)%nat -> length (nth i M []) = m) ->
  length (concat M) = (length M * m)%nat /\
  forall i j, (i < length M)%nat -> (j < m)%nat ->
              nth (i * m + j) (concat M) 0%R = nth j (nth i M []) 0%R.
Proof.
  induction M as [|r M IH]; intros Hrows.
  - split; [reflexivity|]. intros i j Hi. simpl in Hi. lia.
  - assert (Hr : length r = m) by (apply (Hrows 0%nat); simpl; lia).
    destruct IH as [IHlen IHnth].
    { intros i Hi. apply (Hrows (S i)). simpl. lia. }
    split.
    + simpl. rewrite length_app, IHlen, Hr. reflexivity.
    + intros [|i] j Hi Hj; simpl.
      * apply app_nth1. lia.
      * rewrite app_nth2 by lia.
        replace (m + i * m + j - length r)%nat with (i * m + j)%nat by lia.
        apply IHnth; simpl in Hi; lia.
Qed.

Lemma slice_nth (l : list R) (lo hi : Z) (i : nat) :
  0 <= lo -> lo <= hi -> hi <= Py.len l ->
  length (Py.slice l lo hi) = Z.to_nat (hi - lo) /\
  ((i < Z.to_nat (hi - lo))%nat ->
   nth i (Py.slice l lo hi) 0%R = nth (Z.to_nat lo + i) l 0%R).
Proof.
  intros Hlo Hle Hhi. unfold Py.len in Hhi.
  rewrite slice_firstn_skipn by lia. split.
  - rewrite length_firstn, length_skipn. lia.
  - intros Hi. rewrite nth_firstn.
    destruct (Nat.ltb_spec i (Z.to_nat hi - Z.to_nat lo)) as [_|?]; [|lia].
    apply nth_skipn.
Qed.

(** *** What [find_best_answer_window] returns, for any score vectors *)

Lemma find_best_answer_window_spec (start_score end_score : list R) (cs ce : Z) :
  0 <= cs -> cs < ce -> ce <= Py.len start_score -> ce <= Py.len end_score ->
  let L := Z.to_nat (ce - cs) in
  exists (score : R) (s e : nat),
    find_best_answer_window start_score end_score cs ce = Ok (score, s, e)
    /\ (s < L)%nat /\ (e < L)%nat
    /\ score = span_score start_score end_score cs s e
    /\ (forall i j, (i < L)%nat -> (j < L)%nat ->
                    (span_score start_score end_score cs i j <= score)%R)
    /\ (forall i j, (i < L)%nat -> (j < L)%nat -> row_major_before i j s e ->
                    (span_score start_score end_score cs i j < score)%R).
Proof.
  intros Hcs Hlt Hs He L.
  unfold find_best_answer_window.
  set (col := Py.slice start_score cs ce).
  set (row := Py.slice end_score cs ce).
  assert (Hcol : length col = L)
    by (apply (slice_nth start_score cs ce 0%nat); lia).
  assert (Hrow : length row = L)
    by (apply (slice_nth end_score cs ce 0%nat); lia).
  assert (HL : (0 < L)%nat) by (subst L; lia).
  unfold Np.reshape, Py.len. rewrite Hcol, Hrow.
  replace (ce - cs =? Z.of_nat L) with true by (symmetry; apply Z.eqb_eq; lia).
  rewrite orb_true_r. simpl rbind.
  set (M := masked_score_mat col row).
  destruct (concat_rectangular L M) as [Hclen Hcnth].
  { intros i Hi. subst M. rewrite masked_length in Hi.
    rewrite masked_row_length by assumption. exact Hrow. }
  assert (HM : length M = L) by (subst M; rewrite masked_length; exact Hcol).
  rewrite HM in Hclen, Hcnth.
  destruct (argmax_spec (Np.flatten M)) as (k & Hk & Hklt & Hkmax & Hkfirst).
  { unfold Np.flatten. intros Hnil. rewrite Hnil in Hclen. simpl in Hclen. nia. }
  unfold Np.flatten in *. rewrite Hk. simpl rbind. rewrite Hrow.
  rewrite Hclen in Hklt, Hkmax.
  pose proof (Nat.div_mod_eq k L) as Hdm.
  assert (Hmod : (k mod L < L)%nat) by (apply Nat.mod_upper_bound; lia).
  assert (Hdiv : (k / L < L)%nat) by (apply Nat.Div0.div_lt_upper_bound; nia).
  assert (Hentry : forall i j, (i < L)%nat -> (j < L)%nat ->
             nth (i * L + j) (concat M) 0%R = span_score start_score end_score cs i j).
  { intros i j Hi Hj. rewrite Hcnth by assumption.
    change (nth j (nth i M []) 0%R) with (Np.get M i j).
    subst M. rewrite masked_get by lia. unfold span_score. subst col row.
    destruct (slice_nth start_score cs ce i) as [_ ->]; try lia.
    destruct (slice_nth end_score cs ce j) as [_ ->]; try lia.
    reflexivity. }
  assert (Hkk : k = (k / L * L + k mod L)%nat) by lia.
  assert (Hscore : Np.get M (k / L) (k mod L) = nth k (concat M) 0%R).
  { unfold Np.get. rewrite <- Hcnth by assumption. now rewrite <- Hkk. }
  exists (Np.get M (k / L) (k mod L)), (k / L)%nat, (k mod L)%nat.
  split; [reflexivity|]. split; [assumption|]. split; [assumption|].
  rewrite Hscore. split; [|split].
  - rewrite Hkk at 1. now apply Hentry.
  - intros i j Hi Hj. rewrite <- Hentry by assumption. apply Hkmax. nia.
  - intros i j Hi Hj Hbefore. rewrite <- Hentry by assumption. apply Hkfirst.
    unfold row_major_before in Hbefore. nia.
Qed.

(** *** Softmax: [get_score] *)

Lemma sum_exp_nonneg (l : list R) : (0 <= Np.sum (map exp l))%R.
Proof.
  induction l as [|x l IH]; simpl; [apply Rle_refl|].
  pose proof (exp_pos x). lra.
Qed.

Lemma sum_exp_ge_nth (l : list R) :
  forall i, (i < length l)%nat -> (exp (nth i l 0) <= Np.sum (map exp l))%R.
Proof.
  induction l as [|x l IH]; intros i Hi; simpl in *; [lia|].
  pose proof (sum_exp_nonneg l). pose proof (exp_pos x).
  destruct i as [|i].
  - lra.
  - specialize (IH i ltac:(lia)). lra.
Qed.

Lemma get_score_length (l : list R) : length (get_score l) = length l.
Proof. unfold get_score. now rewrite !length_map. Qed.

Lemma get_score_nth (l : list R) (i : nat) :
  (i < length l)%nat ->
  nth i (get_score l) 0%R = (exp (nth i l 0) / Np.sum (map exp l))%R.
Proof.
  intros Hi. unfold get_score.
  set (T := Np.sum (map exp l)).
  rewrite (nth_indep _ 0%R ((fun x => (x / T)%R) (exp 0)))
    by (now rewrite !length_map).
  rewrite (map_nth (fun x => (x / T)%R)). now rewrite (map_nth exp).
Qed.

Lemma get_score_bounds (l : list R) (i : nat) :
  (i < length l)%nat -> (0 < nth i (get_score l) 0 <= 1)%R.
Proof.
  intros Hi. rewrite get_score_nth by assumption.
  pose proof (exp_pos (nth i l 0%R)) as Hpos.
  pose proof (sum_exp_ge_nth l i Hi) as Hle.
  set (T := Np.sum (map exp l)) in *.
  assert (HT : (0 < T)%R) by lra.
  split.
  - apply Rdiv_lt_0_compat; assumption.
  - apply Rmult_le_reg_r with T; [assumption|].
    unfold Rdiv. rewrite Rmult_assoc, Rinv_l by lra. lra.
Qed.

Lemma get_score_lt (l : list R) (i j : nat) :
  (i < length l)%nat -> (j < length l)%nat ->
  (nth i l 0 < nth j l 0)%R ->
  (nth i (get_score l) 0 < nth j (get_score l) 0)%R.
Proof.
  intros Hi Hj Hlt. rewrite !get_score_nth by assumption.
  pose proof (exp_pos (nth j l 0%R)).
  pose proof (sum_exp_ge_nth l j Hj).
  apply Rmult_lt_compat_r.
  - apply Rinv_0_lt_compat. lra.
  - now apply exp_increasing.
Qed.

(** *** The span search on softmax scores *)

Lemma span_search_softmax (output_start output_end : list R) (cs ce : Z) :
  0 <= cs -> cs < ce -> ce <= Py.len output_start -> ce <= Py.len output_end ->
  let L := Z.to_nat (ce - cs) in
  let ps := get_score output_start in
  let pe := get_score output_end in
  exists (score : R) (s e : nat),
    find_best_answer_window ps pe cs ce = Ok (score, s, e)
    /\ (s <= e)%nat /\ (e - s <= 16)%nat /\ (e < L)%nat
    /\ score = (nth (Z.to_nat cs + s) ps 0 * nth (Z.to_nat cs + e) pe 0)%R
    /\ (0 < score <= 1)%R
    /\ score = span_score ps pe cs s e
    /\ (forall i j, (i < L)%nat -> (j < L)%nat -> (span_score ps pe cs i j <= score)%R)
    /\ (forall i j, (i < L)%nat -> (j < L)%nat -> row_major_before i j s e ->
                    (span_score ps pe cs i j < score)%R).
Proof.
  intros Hcs Hlt Hs He L ps pe.
  assert (Hps : Py.len ps = Py.len output_start)
    by (unfold Py.len; subst ps; now rewrite get_score_length).
  assert (Hpe : Py.len pe = Py.len output_end)
    by (unfold Py.len; subst pe; now rewrite get_score_length).
  destruct (find_best_answer_window_spec ps pe cs ce)
    as (score & s & e & Hres & HsL & HeL & Hscore & Hmax & Hfirst); try lia.
  fold L in HsL, HeL, Hmax, Hfirst.
  assert (Hpos : forall i j, (i < L)%nat -> (j < L)%nat ->
             (0 < nth (Z.to_nat cs + i) ps 0 * nth (Z.to_nat cs + j) pe 0 <= 1)%R).
  { intros i j Hi Hj. unfold Py.len in *.
    pose proof (get_score_bounds output_start (Z.to_nat cs + i) ltac:(lia)).
    pose proof (get_score_bounds output_end (Z.to_nat cs + j) ltac:(lia)).
    fold ps in H. fold pe in H0.
    split; [apply Rmult_lt_0_compat; lra|].
    replace 1%R with (1 * 1)%R by lra.
    apply Rmult_le_compat; lra. }
  assert (H00 : (0 < score)%R).
  { apply Rlt_le_trans with (span_score ps pe cs 0 0).
    - unfold span_score. simpl. apply Hpos; lia.
    - apply Hmax; lia. }
  assert (Hband : (s <= e)%nat /\ (e - s <= 16)%nat /\
                  score = (nth (Z.to_nat cs + s) ps 0 * nth (Z.to_nat cs + e) pe 0)%R).
  { rewrite Hscore in H00 |- *. unfold span_score in *.
    destruct (Nat.ltb_spec e s); [lra|].
    destruct (Nat.ltb_spec 16 (e - s)); [lra|].
    repeat split; lia || reflexivity. }
  destruct Hband as (Hse & H16 & Hprod).
  exists score, s, e. repeat split; try assumption.
  rewrite Hprod. apply Hpos; assumption.
Qed.

Lemma span_score_flat_nth (ps pe : list R) (cs : Z) (L i j : nat) :
  (i < L)%nat -> (j < L)%nat ->
  length (span_score_flat ps pe cs L) = (L * L)%nat /\
  nth (i * L + j) (span_score_flat ps pe cs L) 0%R = span_score ps pe cs i j.
Proof.
  intros Hi Hj. unfold span_score_flat.
  set (M := map (fun i => map (span_score ps pe cs i) (seq 0 L)) (seq 0 L)).
  assert (HM : length M = L) by (subst M; now rewrite length_map, length_seq).
  assert (Hrow : forall r, (r < L)%nat ->
                           nth r M [] = map (span_score ps pe cs r) (seq 0 L)).
  { intros r Hr. subst M.
    rewrite (nth_indep _ [] ((fun i => map (span_score ps pe cs i) (seq 0 L)) 0%nat))
      by (now rewrite length_map, length_seq).
    rewrite (map_nth (fun i => map (span_score ps pe cs i) (seq 0 L))).
    now rewrite seq_nth by assumption. }
  destruct (concat_rectangular L M) as [Hlen Hnth].
  { intros r Hr. rewrite Hrow by lia. now rewrite length_map, length_seq. }
  rewrite HM in *. split; [assumption|].
  rewrite Hnth by assumption. rewrite Hrow by assumption.
  rewrite (nth_indep _ 0%R (span_score ps pe cs i 0%nat))
    by (now rewrite length_map, length_seq).
  rewrite (map_nth (span_score ps pe cs i)). now rewrite seq_nth by assumption.
Qed.

Lemma first_max_of_span_scores (ps pe : list R) (cs : Z) (L s e : nat) :
  (s < L)%nat -> (e < L)%nat ->
  (forall i j, (i < L)%nat -> (j < L)%nat ->
               (span_score ps pe cs i j <= span_score ps pe cs s e)%R) ->
  (forall i j, (i < L)%nat -> (j < L)%nat -> row_major_before i j s e ->
               (span_score ps pe cs i j < span_score ps pe cs s e)%R) ->
  first_max_index (span_score_flat ps pe cs L) (s * L + e).
Proof.
  intros Hs He Hmax Hfirst.
  destruct (span_score_flat_nth ps pe cs L s e Hs He) as [Hlen Hse].
  assert (Hdec : forall k, (k < L * L)%nat ->
             (k / L < L)%nat /\ (k mod L < L)%nat /\ k = (k / L * L + k mod L)%nat).
  { intros k Hk. pose proof (Nat.div_mod_eq k L).
    assert ((k mod L < L)%nat) by (apply Nat.mod_upper_bound; lia).
    assert ((k / L < L)%nat) by (apply Nat.Div0.div_lt_upper_bound; nia).
    repeat split; lia. }
  unfold first_max_index. rewrite Hlen, Hse. repeat split.
  - nia.
  - intros k Hk. destruct (Hdec k Hk) as (Hi & Hj & ->).
    destruct (span_score_flat_nth ps pe cs L _ _ Hi Hj) as [_ ->].
    now apply Hmax.
  - intros k Hk. destruct (Hdec k ltac:(nia)) as (Hi & Hj & Heq).
    rewrite Heq.
    destruct (span_score_flat_nth ps pe cs L _ _ Hi Hj) as [_ ->].
    apply Hfirst; try assumption. unfold row_major_before.
    destruct (Nat.lt_trichotomy (k / L) s) as [?|[?|?]]; [left; lia|right; nia|nia].
Qed.

(** C7: the span [find_best_answer_window] selects is the argmax of the
    masked score matrix, the first one in row-major order (lowest start, then
    lowest end): its position [max_s * L + max_e] is the first position of the
    flattened matrix that holds the maximum. *)
Theorem find_best_answer_window_row_major_argmax
        (output_start output_end : list R) (cs ce : Z) :
  0 <= cs -> cs < ce -> ce <= Py.len output_start -> ce <= Py.len output_end ->
  let L := Z.to_nat (ce - cs) in
  let ps := get_score output_start in
  let pe := get_score output_end in
  exists (score : R) (s e : nat),
    find_best_answer_window ps pe cs ce = Ok (score, s, e)
    /\ (s < L)%nat /\ (e < L)%nat
    /\ score = span_score ps pe cs s e
    /\ (forall i j, (i < L)%nat -> (j < L)%nat ->
                    (span_score ps pe cs i j <= span_score ps pe cs s e)%R)
    /\ (forall i j, (i < L)%nat -> (j < L)%nat -> row_major_before i j s e ->
                    (span_score ps pe cs i j < span_score ps pe cs s e)%R)
    /\ first_max_index (span_score_flat ps pe cs L) (s * L + e).
Proof.
  intros Hcs Hlt Hs He L ps pe.
  destruct (span_search_softmax output_start output_end cs ce Hcs Hlt Hs He)
    as (score & s & e & Hres & Hse & H16 & HeL & _ & _ & Hscore & Hmax & Hfirst).
  fold L ps pe in Hres, HeL, Hscore, Hmax, Hfirst.
  rewrite Hscore in Hmax, Hfirst.
  exists score, s, e.
  split; [assumption|]. split; [lia|]. split; [assumption|].
  split; [assumption|]. split; [assumption|]. split; [assumption|].
  apply first_max_of_span_scores; try assumption. lia.
Qed.

(** In exact real arithmetic the score [find_best_answer_window] returns on
    softmax scores is the product of the start probability of the selected
    start and the end probability of the selected end, each an
    [exp(logit) / sum] in [0, 1]. This does not carry over to the floats of
    the notebook, where [np.exp] overflows on large logits. *)
Lemma find_best_answer_window_score_real_arithmetic
        (output_start output_end : list R) (cs ce : Z) :
  0 <= cs -> cs < ce -> ce <= Py.len output_start -> ce <= Py.len output_end ->
  exists (score : R) (s e : nat),
    find_best_answer_window (get_score output_start) (get_score output_end) cs ce
    = Ok (score, s, e)
    /\ (0 <= score <= 1)%R
    /\ score = (nth (Z.to_nat cs + s) (get_score output_start) 0
                * nth (Z.to_nat cs + e) (get_score output_end) 0)%R
    /\ nth (Z.to_nat cs + s) (get_score output_start) 0%R
       = (exp (nth (Z.to_nat cs + s) output_start 0) / Np.sum (map exp output_start))%R
    /\ nth (Z.to_nat cs + e) (get_score output_end) 0%R
       = (exp (nth (Z.to_nat cs + e) output_end 0) / Np.sum (map exp output_end))%R
    /\ (0 <= nth (Z.to_nat cs + s) (get_score output_start) 0 <= 1)%R
    /\ (0 <= nth (Z.to_nat cs + e) (get_score output_end) 0 <= 1)%R.
Proof.
  intros Hcs Hlt Hs He.
  destruct (span_search_softmax output_start output_end cs ce Hcs Hlt Hs He)
    as (score & s & e & Hres & Hse & H16 & HeL & Hprod & Hunit & _).
  unfold Py.len in *.
  pose proof (get_score_bounds output_start (Z.to_nat cs + s) ltac:(lia)).
  pose proof (get_score_bounds output_end (Z.to_nat cs + e) ltac:(lia)).
  exists score, s, e. repeat split; try assumption; try lra.
  - apply get_score_nth. lia.
  - apply get_score_nth. lia.
Qed.

Lemma index_in_range {A : Type} (l : list A) (i : Z) :
  0 <= i < Py.len l ->
  exists x, Py.index l i = Ok x /\ nth_error l (Z.to_nat i) = Some x.
Proof.
  intros Hi. unfold Py.index, Py.len in *.
  destruct (Z.ltb_spec i 0) as [?|_]; [lia|].
  destruct (Z.ltb_spec i 0) as [?|_]; [lia|].
  destruct (nth_error l (Z.to_nat i)) as [x|] eqn:E.
  - exists x. split; reflexivity.
  - apply nth_error_None in E. lia.
Qed.

(** The span lies in the context range, and [postprocess] finds its
    offsets. *)
Lemma postprocess_in_range
        (output_start output_end : list R) (cs ce : Z) :
  0 <= cs -> cs < ce -> ce <= Py.len output_start -> ce <= Py.len output_end ->
  exists (score : R) (s e : nat),
    find_best_answer_window (get_score output_start) (get_score output_end) cs ce
    = Ok (score, s, e)
    /\ 0 <= Z.of_nat s <= Z.of_nat e /\ Z.of_nat e < ce - cs
    /\ forall (input_size : Z) (question_tokens : list Z)
              (context_tokens_start_end : list (Z * Z)) (padding start_idx : Z),
        cs = Py.len question_tokens + 2 ->
        ce = input_size - padding - 1 ->
        0 <= start_idx ->
        start_idx + (ce - cs) <= Py.len context_tokens_start_end ->
        exists first last : Z * Z,
          nth_error context_tokens_start_end (Z.to_nat (Z.of_nat s + start_idx))
          = Some first
          /\ nth_error context_tokens_start_end (Z.to_nat (Z.of_nat e + start_idx))
             = Some last
          /\ postprocess input_size output_start output_end question_tokens
                         context_tokens_start_end padding start_idx
             = Ok (score, fst first, snd last).
Proof.
  intros Hcs Hlt Hs He.
  destruct (span_search_softmax output_start output_end cs ce Hcs Hlt Hs He)
    as (score & s & e & Hres & Hse & H16 & HeL & _).
  exists score, s, e.
  split; [assumption|]. split; [lia|]. split; [lia|].
  intros input_size q offsets padding start_idx Hq Hpad Hstart Hfit.
  destruct (index_in_range offsets (Z.of_nat s + start_idx)) as (first & Hf & Hfn); [lia|].
  destruct (index_in_range offsets (Z.of_nat e + start_idx)) as (last & Hl & Hln); [lia|].
  exists first, last. split; [assumption|]. split; [assumption|].
  unfold postprocess. rewrite <- Hq, <- Hpad, Hres. simpl rbind.
  rewrite Hf. simpl rbind. rewrite Hl. reflexivity.
Qed.

(** C10: on a non-empty context range [cs, ce) inside the model outputs,
    [find_best_answer_window] returns [0 <= max_start <= max_end < ce - cs];
    hence, when the range is the context slice of a window that starts at
    [start_idx] and the slice lies inside the tokenized context,
    [postprocess] finds both character offsets inside
    [context_tokens_start_end] and returns them. *)
Theorem find_best_answer_window_span_in_range
        (output_start output_end : list R) (cs ce : Z) :
  0 <= cs -> cs < ce -> ce <= Py.len output_start -> ce <= Py.len output_end ->
  exists (score : R) (s e : nat),
    find_best_answer_window (get_score output_start) (get_score output_end) cs ce
    = Ok (score, s, e)
    /\ 0 <= Z.of_nat s <= Z.of_nat e /\ Z.of_nat e < ce - cs
    /\ forall (input_size : Z) (question_tokens : list Z)
              (context_tokens_start_end : list (Z * Z)) (padding start_idx : Z),
        cs = Py.len question_tokens + 2 ->
        ce = input_size - padding - 1 ->
        0 <= start_idx ->
        start_idx + (ce - cs) <= Py.len context_tokens_start_end ->
        exists first last : Z * Z,
          nth_error context_tokens_start_end (Z.to_nat (Z.of_nat s + start_idx))
          = Some first
          /\ nth_error context_tokens_start_end (Z.to_nat (Z.of_nat e + start_idx))
             = Some last
          /\ postprocess input_size output_start output_end question_tokens
                         context_tokens_start_end padding start_idx
             = Ok (score, fst first, snd last).
Proof.
  intros Hcs Hlt Hs He.
  exact (postprocess_in_range output_start output_end cs ce Hcs Hlt Hs He).
Qed.

(** X11: on softmax scores the selected span never has
    [max_end - max_start > 16], and never ends before it starts. *)
Theorem find_best_answer_window_band
      (output_start output_end : list R) (cs ce : Z) :
  0 <= cs -> cs < ce -> ce <= Py.len output_start -> ce <= Py.len output_end ->
  exists (score : R) (s e : nat),
    find_best_answer_window (get_score output_start) (get_score output_end) cs ce
    = Ok (score, s, e)
    /\ (s <= e)%nat /\ (e - s <= 16)%nat.
Proof.
  intros Hcs Hlt Hs He.
  destruct (span_search_softmax output_start output_end cs ce Hcs Hlt Hs He)
    as (score & s & e & Hres & Hse & H16 & _).
  exists score, s, e. repeat split; assumption.
Qed.

(** When the start logits peak strictly at context position [a] and the end
    logits at context position [b], with [a <= b <= a + 16], the selected span
    is [(a, b)]. *)
Lemma find_best_answer_window_peaks
      (output_start output_end : list R) (cs ce : Z) (a b : nat) :
  0 <= cs -> cs < ce -> ce <= Py.len output_start -> ce <= Py.len output_end ->
  let L := Z.to_nat (ce - cs) in
  (a <= b)%nat -> (b - a <= 16)%nat -> (b < L)%nat ->
  (forall i, (i < L)%nat -> i <> a ->
             (nth (Z.to_nat cs + i) output_start 0 < nth (Z.to_nat cs + a) output_start 0)%R) ->
  (forall j, (j < L)%nat -> j <> b ->
             (nth (Z.to_nat cs + j) output_end 0 < nth (Z.to_nat cs + b) output_end 0)%R) ->
  exists score : R,
    find_best_answer_window (get_score output_start) (get_score output_end) cs ce
    = Ok (score, a, b).
Proof.
  intros Hcs Hlt Hs He L Hab H16 HbL Hpa Hpb.
  destruct (span_search_softmax output_start output_end cs ce Hcs Hlt Hs He)
    as (score & s & e & Hres & Hse & Hse16 & HeL & Hprod & Hunit & _ & Hmax & _).
  fold L in HeL, Hmax.
  set (ps := get_score output_start) in *.
  set (pe := get_score output_end) in *.
  unfold Py.len in *.
  assert (Hin : forall i, (i < L)%nat ->
             (0 < nth (Z.to_nat cs + i) ps 0)%R /\ (0 < nth (Z.to_nat cs + i) pe 0)%R).
  { intros i Hi. split.
    - apply (get_score_bounds output_start). lia.
    - apply (get_score_bounds output_end). lia. }
  assert (Hab_score : (span_score ps pe cs a b <= score)%R) by (apply Hmax; lia).
  unfold span_score in Hab_score.
  destruct (Nat.ltb_spec b a) as [?|_]; [lia|].
  destruct (Nat.ltb_spec 16 (b - a)) as [?|_]; [lia|].
  assert (Hsa : (nth (Z.to_nat cs + s) ps 0 <= nth (Z.to_nat cs + a) ps 0)%R).
  { destruct (Nat.eq_dec s a) as [->|Hne]; [apply Rle_refl|].
    apply Rlt_le. apply get_score_lt; try lia. apply Hpa; lia. }
  assert (Heb : (nth (Z.to_nat cs + e) pe 0 <= nth (Z.to_nat cs + b) pe 0)%R).
  { destruct (Nat.eq_dec e b) as [->|Hne]; [apply Rle_refl|].
    apply Rlt_le. apply get_score_lt; try lia. apply Hpb; lia. }
  destruct (Hin s ltac:(lia)) as [Hs0 _]. destruct (Hin e ltac:(lia)) as [_ He0].
  destruct (Hin a ltac:(lia)) as [Ha0 _]. destruct (Hin b ltac:(lia)) as [_ Hb0].
  assert (s = a).
  { destruct (Nat.eq_dec s a) as [|Hne]; [assumption|exfalso].
    assert (Hstrict : (nth (Z.to_nat cs + s) ps 0 < nth (Z.to_nat cs + a) ps 0)%R)
      by (apply get_score_lt; try lia; apply Hpa; lia).
    rewrite Hprod in Hab_score. nra. }
  assert (e = b).
  { destruct (Nat.eq_dec e b) as [|Hne]; [assumption|exfalso].
    assert (Hstrict : (nth (Z.to_nat cs + e) pe 0 < nth (Z.to_nat cs + b) pe 0)%R)
      by (apply get_score_lt; try lia; apply Hpb; lia).
    rewrite Hprod in Hab_score. nra. }
  subst s e. exists score. exact Hres.
Qed.

Lemma one_hot_logits_nth (n at_pos i : nat) (hot : R) :
  (i < n)%nat ->
  nth i (one_hot_logits n at_pos hot) 0%R = if (i =? at_pos)%nat then hot else 0%R.
Proof.
  intros Hi. unfold one_hot_logits. apply nth_error_nth.
  rewrite nth_error_map, nth_error_seq.
  destruct (Nat.ltb_spec i n) as [_|?]; [|lia]. reflexivity.
Qed.

Lemma one_hot_logits_length (n at_pos : nat) (hot : R) :
  length (one_hot_logits n at_pos hot) = n.
Proof. unfold one_hot_logits. now rewrite length_map, length_seq. Qed.

(** C4 fails on the code: [np.tril(score_mat, 16)] keeps the spans with
    [max_end - max_start = 16], which hold 17 tokens.  With a question of two
    tokens and a context of 17 tokens in a window of 384 entries (context
    range [4, 21)), start logits that peak on the first context token and
    end logits that peak on the last one select the span [(0, 16)]. *)
Theorem find_best_answer_window_selects_17_tokens :
  let output_start := one_hot_logits 384 4 1 in
  let output_end := one_hot_logits 384 20 1 in
  exists score : R,
    find_best_answer_window (get_score output_start) (get_score output_end) 4 21
    = Ok (score, 0%nat, 16%nat)
    /\ span_length 0 16 = 17%nat.
Proof.
  intros output_start output_end.
  destruct (find_best_answer_window_peaks output_start output_end 4 21 0 16)
    as [score Hres]; unfold Py.len; subst output_start output_end;
    rewrite ?one_hot_logits_length; try lia.
  - intros i Hi Hne. rewrite !one_hot_logits_nth by lia.
    destruct (Nat.eqb_spec (Z.to_nat 4 + i) 4) as [?|_]; [lia|].
    simpl. lra.
  - intros j Hj Hne. rewrite !one_hot_logits_nth by lia.
    destruct (Nat.eqb_spec (Z.to_nat 4 + j) 20) as [?|_]; [lia|].
    simpl. lra.
  - exists score. split; [exact Hres | reflexivity].
Qed.

(** ** Aggregation *)

Lemma max_from_spec (t : list (R * Z * Z)) :
  forall (pre : list (R * Z * Z)) (bi : nat) (best : R * Z * Z),
    nth_error pre bi = Some best ->
    (forall j c, nth_error pre j = Some c -> (fst (fst c) <= fst (fst best))%R) ->
    (forall j c, (j < bi)%nat -> nth_error pre j = Some c ->
                 (fst (fst c) < fst (fst best))%R) ->
    exists k,
      nth_error (pre ++ t) k = Some (max_from best t)
      /\ (forall j c, nth_error (pre ++ t) j = Some c ->
                      (fst (fst c) <= fst (fst (max_from best t)))%R)
      /\ (forall j c, (j < k)%nat -> nth_error (pre ++ t) j = Some c ->
                      (fst (fst c) < fst (fst (max_from best t)))%R).
Proof.
  induction t as [|x t IH]; intros pre bi best Hbi Hmax Hfirst; simpl.
  - rewrite app_nil_r. exists bi. repeat split; assumption.
  - assert (Hbilt : (bi < length pre)%nat)
      by (apply nth_error_Some; rewrite Hbi; discriminate).
    assert (Hold : forall j, (j < length pre)%nat ->
                             nth_error (pre ++ [x]) j = nth_error pre j)
      by (intros j Hj; apply nth_error_app1; exact Hj).
    assert (Hnew : nth_error (pre ++ [x]) (length pre) = Some x)
      by (rewrite nth_error_app2, Nat.sub_diag by lia; reflexivity).
    assert (Hcases : forall j c, nth_error (pre ++ [x]) j = Some c ->
                       ((j < length pre)%nat /\ nth_error pre j = Some c)
                       \/ (j = length pre /\ c = x)).
    { intros j c Hj. destruct (Nat.lt_trichotomy j (length pre)) as [Hlt|[->|Hgt]].
      - left. split; [assumption|]. now rewrite <- Hold.
      - right. split; [reflexivity|]. congruence.
      - exfalso. assert (Hn : nth_error (pre ++ [x]) j = None).
        { apply nth_error_None. rewrite length_app. simpl. lia. }
        congruence. }
    replace (pre ++ x :: t) with ((pre ++ [x]) ++ t)
      by (rewrite <- app_assoc; reflexivity).
    destruct (Rlt_dec (fst (fst best)) (fst (fst x))) as [Hlt|Hge].
    + apply (IH (pre ++ [x]) (length pre) x).
      * exact Hnew.
      * intros j c Hj. destruct (Hcases j c Hj) as [[_ Hc]|[_ ->]].
        -- apply Rlt_le. apply Rle_lt_trans with (fst (fst best)); [|exact Hlt].
           now apply (Hmax j).
        -- apply Rle_refl.
      * intros j c Hj Hc. rewrite Hold in Hc by assumption.
        apply Rle_lt_trans with (fst (fst best)); [|exact Hlt]. now apply (Hmax j).
    + apply (IH (pre ++ [x]) bi best).
      * now rewrite Hold.
      * intros j c Hj. destruct (Hcases j c Hj) as [[_ Hc]|[_ ->]].
        -- now apply (Hmax j).
        -- now apply Rnot_lt_le.
      * intros j c Hj Hc. rewrite Hold in Hc by lia. now apply (Hfirst j).
Qed.

Lemma max_by_score_spec (results : list (R * Z * Z)) :
  results <> [] ->
  exists k best,
    max_by_score results = Ok best
    /\ nth_error results k = Some best
    /\ (forall j c, nth_error results j = Some c -> (fst (fst c) <= fst (fst best))%R)
    /\ (forall j c, (j < k)%nat -> nth_error results j = Some c ->
                    (fst (fst c) < fst (fst best))%R).
Proof.
  destruct results as [|x t]; [congruence|]. intros _.
  destruct (max_from_spec t [x] 0%nat x) as (k & Hk & Hmax & Hfirst).
  - reflexivity.
  - intros [|[|j]] c Hc; simpl in Hc; try discriminate.
    injection Hc as <-. apply Rle_refl.
  - intros j c Hj. lia.
  - exists k, (max_from x t). split; [reflexivity|]. repeat split; assumption.
Qed.



Example str_slice_middle : str_slice "hello world" 6 11 = "world"%string.
Proof. reflexivity. Qed.

Example str_slice_clipped : str_slice "hello" 3 99 = "lo"%string.
Proof. reflexivity. Qed.

Example str_slice_from_the_end : str_slice "hello" (-3) (-1) = "ll"%string.
Proof. reflexivity. Qed.

Example str_slice_crossed : str_slice "hello" 3 1 = EmptyString.
Proof. reflexivity. Qed.

Section PipelineFacts.

Variable input_size : Z.
Variables cls_token pad_token sep_token : Z.
Variable has_position_ids : bool.
Variable compiled_model : input_dict -> result (list R * list R).
Variable text_to_tokens : string -> list Z * list (Z * Z).
Variable lower : string -> string.
Variable load_context : list string -> string.

Let prepare_input' := prepare_input input_size cls_token pad_token sep_token has_position_ids.
Let window_candidate' := window_candidate input_size compiled_model.
Let answer_loop' := answer_loop input_size compiled_model.
Let get_best_answer' :=
  get_best_answer input_size cls_token pad_token sep_token has_position_ids
                  compiled_model text_to_tokens lower.
Let run_question_answering' :=
  run_question_answering input_size cls_token pad_token sep_token has_position_ids
                         compiled_model text_to_tokens lower load_context.

(** The context range of an emitted window, as [postprocess] computes it. *)
Lemma window_range (q ctx : list Z) (ws : list (input_dict * Z * Z))
      (k : nat) (w : input_dict * Z * Z) :
  prepare_input' q ctx = Ok ws -> nth_error ws k = Some w -> ctx <> [] ->
  let cs := Py.len q + 2 in
  let ce := input_size - snd (fst w) - 1 in
  0 <= cs /\ cs < ce /\ ce <= input_size /\ 0 <= snd w
  /\ snd w + (ce - cs) <= Py.len ctx.
Proof.
  intros Hp Hk Hne cs ce.
  destruct (nth_prepare_input _ _ _ _ _ q ctx ws k w Hp Hk) as (Hc & Hs & Hb & Hw).
  pose proof (half_capacity_pos input_size q Hc) as Hh.
  unfold window_start in *.
  assert (H0 : 0 <= snd w) by nia.
  rewrite prepare_window_eq in Hw by lia.
  assert (Hpad : snd (fst w)
                 = context_capacity input_size q
                   - Py.len (Py.slice ctx (snd w) (snd w + context_capacity input_size q))).
  { rewrite Hw at 1. reflexivity. }
  rewrite slice_length in Hpad by lia.
  assert (Hn : 0 < Py.len ctx).
  { unfold Py.len. destruct ctx; [congruence|]. simpl. lia. }
  subst cs ce. unfold context_capacity in *. unfold Py.len in *.
  repeat split; lia.
Qed.

Lemma window_candidate_ok (q ctx : list Z) (offsets : list (Z * Z))
      (ws : list (input_dict * Z * Z)) (k : nat) (w : input_dict * Z * Z)
      (output_start output_end : list R) :
  prepare_input' q ctx = Ok ws -> nth_error ws k = Some w -> ctx <> [] ->
  length offsets = length ctx ->
  compiled_model (fst (fst w)) = Ok (output_start, output_end) ->
  Py.len output_start = input_size -> Py.len output_end = input_size ->
  exists candidate,
    postprocess input_size output_start output_end q offsets (snd (fst w)) (snd w)
    = Ok candidate
    /\ window_candidate' q offsets w candidate.
Proof.
  intros Hp Hk Hne Hoff Hm Hls Hle.
  destruct (window_range q ctx ws k w Hp Hk Hne) as (Hcs & Hlt & Hce & Hs0 & Hfit).
  destruct (postprocess_in_range output_start output_end (Py.len q + 2)
              (input_size - snd (fst w) - 1))
    as (score & s & e & Hres & Hse & HeL & Hpost); try lia.
  destruct (Hpost input_size q offsets (snd (fst w)) (snd w))
    as (first & last & Hf & Hl & Hok); try reflexivity; try lia.
  { unfold Py.len in *. lia. }
  exists (score, fst first, snd last). split; [exact Hok|].
  exists output_start, output_end, score, s, e, first, last.
  repeat split; assumption.
Qed.

Lemma answer_loop_ok (q : list Z) (offsets : list (Z * Z)) :
  forall (windows : list (input_dict * Z * Z)) (acc : list (R * Z * Z)) (w0 : world),
    (forall w, In w windows ->
       exists out candidate,
         compiled_model (fst (fst w)) = Ok out
         /\ postprocess input_size (fst out) (snd out) q offsets (snd (fst w)) (snd w)
            = Ok candidate
         /\ window_candidate' q offsets w candidate) ->
    exists candidates,
      Forall2 (window_candidate' q offsets) windows candidates
      /\ answer_loop' q offsets windows acc w0
         = (mk_world (fed w0 ++ map (fun w => fst (fst w)) windows) (stdout w0),
            Ok (acc ++ candidates)).
Proof.
  induction windows as [|w windows IH]; intros acc w0 Hall.
  - exists []. split; [constructor|]. simpl. unfold ret.
    rewrite !app_nil_r. destruct w0; reflexivity.
  - destruct (Hall w (or_introl eq_refl)) as (out & candidate & Hm & Hpost & Hcand).
    destruct (IH (acc ++ [candidate])
                 (mk_world (fed w0 ++ [fst (fst w)]) (stdout w0)))
      as (candidates & Hf2 & Hloop).
    { intros w' Hin. apply Hall. now right. }
    exists (candidate :: candidates). split; [now constructor|].
    destruct w as [[network_input padding] start_idx]. simpl in *.
    unfold bind, infer, lift. rewrite Hm, Hpost.
    subst answer_loop'. rewrite Hloop. simpl.
    now rewrite <- !app_assoc.
Qed.

(** A query on a context with tokens: every window is given to the model in
    turn, every window contributes its candidate, and the first candidate
    with the largest score makes the answer. *)
Lemma get_best_answer_run (question context : string)
        (question_tokens context_tokens : list Z)
        (question_offsets offsets : list (Z * Z)) (w0 : world) :
  text_to_tokens (lower context) = (context_tokens, offsets) ->
  text_to_tokens (lower question) = (question_tokens, question_offsets) ->
  16 <= input_size - Py.len question_tokens - 3 ->
  context_tokens <> [] ->
  length offsets = length context_tokens ->
  (forall windows w,
      prepare_input' question_tokens context_tokens = Ok windows -> In w windows ->
      exists output_start output_end,
        compiled_model (fst (fst w)) = Ok (output_start, output_end)
        /\ Py.len output_start = input_size /\ Py.len output_end = input_size) ->
  exists (windows : list (input_dict * Z * Z)) (candidates : list (R * Z * Z))
         (k : nat) (best : R * Z * Z),
    prepare_input' question_tokens context_tokens = Ok windows
    /\ Forall2 (window_candidate' question_tokens offsets) windows candidates
    /\ nth_error candidates k = Some best
    /\ (forall j c, nth_error candidates j = Some c ->
                    (fst (fst c) <= fst (fst best))%R)
    /\ (forall j c, (j < k)%nat -> nth_error candidates j = Some c ->
                    (fst (fst c) < fst (fst best))%R)
    /\ get_best_answer' question context w0
       = (mk_world (fed w0 ++ map (fun w => fst (fst w)) windows) (stdout w0),
          Ok (str_slice context (snd (fst best)) (snd best), fst (fst best))).
Proof.
  intros Hctx Hq Hcap Hne Hoff Hmodel.
  pose proof (prepare_input_ok input_size cls_token pad_token sep_token
                has_position_ids question_tokens context_tokens Hcap) as Hp.
  set (windows := map _ _) in Hp. fold prepare_input' in Hp.
  assert (Hwne : windows <> []).
  { destruct (window_starts_nonempty input_size question_tokens context_tokens Hcap)
      as [rest Hrest].
    subst windows. rewrite Hrest. discriminate. }
  destruct (answer_loop_ok question_tokens offsets windows [] w0)
    as (candidates & Hf2 & Hloop).
  { intros w Hin. destruct (Hmodel windows w Hp Hin) as (ls & le & Hm & Hls & Hle).
    destruct (In_nth_error _ _ Hin) as [k Hk].
    destruct (window_candidate_ok question_tokens context_tokens offsets windows k w
                ls le Hp Hk Hne Hoff Hm Hls Hle) as (candidate & Hpost & Hcand).
    exists (ls, le), candidate. repeat split; assumption. }
  assert (Hcne : candidates <> []).
  { intros ->. inversion Hf2. congruence. }
  destruct (max_by_score_spec candidates Hcne) as (k & best & Hbest & Hk & Hmax & Hfirst).
  exists windows, candidates, k, best.
  split; [exact Hp|]. split; [exact Hf2|]. split; [exact Hk|].
  split; [exact Hmax|]. split; [exact Hfirst|].
  subst get_best_answer'. unfold get_best_answer.
  rewrite Hctx, Hq. fold prepare_input'. rewrite Hp.
  unfold bind at 1. unfold lift at 1.
  unfold bind at 1. fold answer_loop'. rewrite Hloop. simpl app.
  unfold bind, lift, ret. rewrite Hbest. reflexivity.
Qed.


(** C3, as the code has it: when the context string is empty,
    [run_question_answering'] prints its empty-context error and returns; it
    builds no window, calls the model on nothing and prints no answer. *)
Theorem run_question_answering_empty_context (sources : list string)
        (example_question : option string) (questions : list string) (w0 : world) :
  String.length (load_context sources) = 0%nat ->
  run_question_answering' sources example_question questions w0
  = (mk_world (fed w0)
              (stdout w0 ++ [PrintContext sources; PrintError empty_context_msg]),
     Ok tt).
Proof.
  intros Hlen. subst run_question_answering'. unfold run_question_answering.
  rewrite Hlen. simpl. unfold bind, print. simpl.
  now rewrite <- app_assoc.
Qed.

End PipelineFacts.

(** ** Concrete runs *)

(** C3 fails on the code.  An empty context string makes
    [run_question_answering] print an error and return normally: nothing is
    raised.  A context that is not empty but holds no token (here a blank)
    passes the guard: one window is built and given to the model, and the
    span search then raises [ValueError] on its empty score matrix. *)
Lemma empty_context_not_raised_before_windowing :
  let run := run_question_answering 384 101 0 102 true (zero_model 384)
               blank_aware_tokenizer (fun s => s) join_paragraphs in
  run [EmptyString] (Some "why"%string) [] (mk_world [] [])
  = (mk_world [] [PrintContext [EmptyString]; PrintError empty_context_msg], Ok tt)
  /\ fst (blank_aware_tokenizer " ") = []
  /\ let r := run [" "%string] (Some "why"%string) [] (mk_world [] []) in
     length (fed (fst r)) = 1%nat
     /\ stdout (fst r) = [PrintContext [" "%string]]
     /\ snd r = Raise ValueError.
Proof.
  vm_compute. repeat split; reflexivity.
Qed.

Lemma run_question_answering_empty_context_witness :
  run_question_answering 384 101 0 102 true (zero_model 384)
    blank_aware_tokenizer (fun s => s) join_paragraphs
    [EmptyString] (Some "why"%string) [] (mk_world [] [])
  = (mk_world [] [PrintContext [EmptyString]; PrintError empty_context_msg], Ok tt).
Proof.
  apply (run_question_answering_empty_context 384 101 0 102 true (zero_model 384)
           blank_aware_tokenizer (fun s => s) join_paragraphs
           [EmptyString] (Some "why"%string) [] (mk_world [] [])).
  reflexivity.
Defined.

(** *** A run over three windows *)

(** The softmax of logits with one peak among 21 entries. *)
Lemma sum_exp_peak_start (hot : R) :
  Np.sum (map exp (one_hot_logits 21 7 hot)) = (exp hot + 20)%R.
Proof. unfold one_hot_logits, Np.sum. simpl. rewrite exp_0. lra. Qed.

Lemma sum_exp_peak_end (hot : R) :
  Np.sum (map exp (one_hot_logits 21 9 hot)) = (exp hot + 20)%R.
Proof. unfold one_hot_logits, Np.sum. simpl. rewrite exp_0. lra. Qed.

(** The span search on these scores goes from entry 7 to entry 9: the
    window-local positions 3 and 5 of a two-token question. *)
Lemma peaked_span (hot : R) :
  (0 < hot)%R ->
  find_best_answer_window (get_score (one_hot_logits 21 7 hot))
                          (get_score (one_hot_logits 21 9 hot)) 4 20
  = Ok (peak_score hot, 3%nat, 5%nat).
Proof.
  intros Hhot.
  destruct (find_best_answer_window_peaks (one_hot_logits 21 7 hot)
              (one_hot_logits 21 9 hot) 4 20 3 5)
    as [score Hres]; unfold Py.len; rewrite ?one_hot_logits_length; try lia.
  - intros i Hi Hne. rewrite !one_hot_logits_nth by lia.
    destruct (Nat.eqb_spec (Z.to_nat 4 + i) 7) as [?|_]; [lia|].
    simpl. exact Hhot.
  - intros j Hj Hne. rewrite !one_hot_logits_nth by lia.
    destruct (Nat.eqb_spec (Z.to_nat 4 + j) 9) as [?|_]; [lia|].
    simpl. exact Hhot.
  - destruct (span_search_softmax (one_hot_logits 21 7 hot)
                (one_hot_logits 21 9 hot) 4 20)
      as (score' & s & e & Hres' & _ & _ & _ & Hprod & _);
      unfold Py.len; rewrite ?one_hot_logits_length; try lia.
    rewrite Hres in Hres'. injection Hres' as <- <- <-.
    rewrite Hres. f_equal. f_equal. f_equal.
    rewrite Hprod.
    rewrite !get_score_nth by (rewrite one_hot_logits_length; simpl; lia).
    rewrite !one_hot_logits_nth by (simpl; lia).
    rewrite sum_exp_peak_start, sum_exp_peak_end. reflexivity.
Qed.

(** The higher peak gives the larger score. *)
Lemma peak_score_increasing : (peak_score 1 < peak_score 2)%R.
Proof.
  unfold peak_score.
  pose proof (exp_pos 1) as H1. pose proof (exp_pos 2) as H2.
  assert (Hlt : (exp 1 < exp 2)%R) by (apply exp_increasing; lra).
  assert (Hd : (exp 1 / (exp 1 + 20) < exp 2 / (exp 2 + 20))%R).
  { apply Rmult_lt_reg_r with ((exp 1 + 20) * (exp 2 + 20))%R; [nra|].
    field_simplify; nra. }
  assert (H0 : (0 < exp 1 / (exp 1 + 20))%R).
  { apply Rdiv_lt_0_compat; lra. }
  nra.
Qed.

(** The three windows of [alphabet_context] for a two-token question. *)
Lemma alphabet_windows (x y : Z) :
  prepare_input 21 101 0 102 false [x; y] (fst (char_tokenizer alphabet_context))
  = Ok [alphabet_window [x; y] 0; alphabet_window [x; y] 8; alphabet_window [x; y] 16].
Proof. vm_compute. reflexivity. Qed.

Lemma peak_height_alphabet (x y : Z) :
  peak_height (fst (fst (alphabet_window [x; y] 0))) = 1%R
  /\ peak_height (fst (fst (alphabet_window [x; y] 8))) = 2%R
  /\ peak_height (fst (fst (alphabet_window [x; y] 16))) = 2%R.
Proof. unfold peak_height. repeat split. Qed.

(** The candidate of a window that starts at [start]: the tokens
    [start + 3] to [start + 5], that is the characters from [start + 3] up
    to [start + 6]. *)
Lemma peaked_candidate (x y start : Z) (hot : R) (c : R * Z * Z) :
  In start [0; 8; 16] ->
  peak_height (fst (fst (alphabet_window [x; y] start))) = hot ->
  (0 < hot)%R ->
  window_candidate 21 peaked_model [x; y] (snd (char_tokenizer alphabet_context))
                   (alphabet_window [x; y] start) c ->
  c = (peak_score hot, start + 3, start + 6).
Proof.
  intros Hin Hh Hhot (ls & le & score & s & e & first & last & Hm & Hres & Hf & Hl & ->).
  unfold peaked_model in Hm. rewrite Hh in Hm. injection Hm as <- <-.
  assert (Hpad : snd (fst (alphabet_window [x; y] start)) = 0
                 /\ snd (alphabet_window [x; y] start) = start).
  { destruct Hin as [<-|[<-|[<-|[]]]]; split; reflexivity. }
  destruct Hpad as [Hpad Hstart]. rewrite Hpad in Hres. rewrite Hstart in Hf, Hl.
  change (Py.len [x; y] + 2) with 4 in Hres. change (21 - 0 - 1) with 20 in Hres.
  rewrite (peaked_span hot Hhot) in Hres. injection Hres as <- <- <-.
  destruct Hin as [<-|[<-|[<-|[]]]]; vm_compute in Hf, Hl;
    injection Hf as <-; injection Hl as <-; reflexivity.
Qed.

Lemma peaked_model_lengths (network_input : input_dict) :
  exists output_start output_end : list R,
    peaked_model network_input = Ok (output_start, output_end)
    /\ Py.len output_start = 21 /\ Py.len output_end = 21.
Proof.
  eexists _, _. split; [reflexivity|].
  unfold Py.len. rewrite !one_hot_logits_length. split; reflexivity.
Qed.

(** The first candidate with the largest score is the one of the second
    window: the first window scores less, the third the same. *)
Lemma peaked_best (x y : Z) (windows : list (input_dict * Z * Z))
      (candidates : list (R * Z * Z)) (k : nat) (best : R * Z * Z) :
  prepare_input 21 101 0 102 false [x; y] (fst (char_tokenizer alphabet_context))
  = Ok windows ->
  Forall2 (window_candidate 21 peaked_model [x; y]
                            (snd (char_tokenizer alphabet_context)))
          windows candidates ->
  nth_error candidates k = Some best ->
  (forall j c, nth_error candidates j = Some c -> (fst (fst c) <= fst (fst best))%R) ->
  (forall j c, (j < k)%nat -> nth_error candidates j = Some c ->
               (fst (fst c) < fst (fst best))%R) ->
  windows = [alphabet_window [x; y] 0; alphabet_window [x; y] 8;
             alphabet_window [x; y] 16]
  /\ candidates = [(peak_score 1, 3, 6); (peak_score 2, 11, 14); (peak_score 2, 19, 22)]
  /\ k = 1%nat
  /\ best = (peak_score 2, 11, 14).
Proof.
  intros Hp Hf2 Hk Hmax Hfirst.
  rewrite alphabet_windows in Hp. injection Hp as <-.
  destruct (peak_height_alphabet x y) as (Hh0 & Hh1 & Hh2).
  inversion Hf2 as [|w0 c0 ws0 cs0 Hc0 Hf1 E0 E0']; subst.
  inversion Hf1 as [|w1 c1 ws1 cs1 Hc1 Hf0 E1 E1']; subst.
  inversion Hf0 as [|w2 c2 ws2 cs2 Hc2 Hnil E2 E2']; subst.
  inversion Hnil; subst.
  apply (peaked_candidate x y 0 1%R) in Hc0; [|simpl; tauto|exact Hh0|lra].
  apply (peaked_candidate x y 8 2%R) in Hc1; [|simpl; tauto|exact Hh1|lra].
  apply (peaked_candidate x y 16 2%R) in Hc2; [|simpl; tauto|exact Hh2|lra].
  subst c0 c1 c2. simpl Z.add in *.
  split; [reflexivity|]. split; [reflexivity|].
  pose proof peak_score_increasing as Hinc.
  destruct k as [|[|[|k]]]; simpl in Hk.
  - injection Hk as <-. specialize (Hmax 1%nat _ eq_refl). simpl in Hmax. lra.
  - injection Hk as <-. split; reflexivity.
  - injection Hk as <-. specialize (Hfirst 1%nat _ ltac:(lia) eq_refl).
    simpl in Hfirst. lra.
  - destruct k; discriminate.
Qed.

(** The query on [alphabet_context] with [peaked_model]. *)
Lemma peaked_run (a b : ascii) (w0 : world) :
  let question := String a (String b EmptyString) in
  let question_tokens := fst (char_tokenizer question) in
  get_best_answer 21 101 0 102 false peaked_model char_tokenizer (fun s => s)
                  question alphabet_context w0
  = (mk_world (fed w0 ++ map (fun w : input_dict * Z * Z => fst (fst w))
                             [alphabet_window question_tokens 0;
                              alphabet_window question_tokens 8;
                              alphabet_window question_tokens 16])
              (stdout w0),
     Ok ("lmn"%string, peak_score 2)).
Proof.
  intros question question_tokens.
  destruct (get_best_answer_run 21 101 0 102 false peaked_model char_tokenizer
              (fun s => s) question alphabet_context
              question_tokens (fst (char_tokenizer alphabet_context))
              (snd (char_tokenizer question)) (snd (char_tokenizer alphabet_context))
              w0)
    as (windows & candidates & k & best & Hp & Hf2 & Hk & Hmax & Hfirst & Hrun).
  - reflexivity.
  - reflexivity.
  - unfold Py.len. simpl. lia.
  - discriminate.
  - reflexivity.
  - intros ws w _ _. apply peaked_model_lengths.
  - destruct (peaked_best _ _ windows candidates k best Hp Hf2 Hk Hmax Hfirst)
      as (-> & _ & _ & ->).
    rewrite Hrun. reflexivity.
Qed.


Lemma find_best_answer_window_row_major_argmax_witness :
  exists (score : R) (s e : nat),
    find_best_answer_window (get_score [0; 0; 1; 0; 0]%R) (get_score [0; 0; 0; 1; 0]%R) 1 4
    = Ok (score, s, e)
    /\ (s < 3)%nat /\ (e < 3)%nat.
Proof.
  destruct (find_best_answer_window_row_major_argmax
              [0; 0; 1; 0; 0]%R [0; 0; 0; 1; 0]%R 1 4)
    as (score & s & e & Hres & Hs & He & _);
    try (unfold Py.len; simpl; lia).
  exists score, s, e. repeat split; assumption.
Defined.

Lemma find_best_answer_window_span_in_range_witness :
  exists (score : R) (s e : nat),
    find_best_answer_window (get_score [0; 0; 1; 0; 0]%R) (get_score [0; 0; 0; 1; 0]%R) 1 4
    = Ok (score, s, e)
    /\ 0 <= Z.of_nat s <= Z.of_nat e /\ Z.of_nat e < 4 - 1.
Proof.
  destruct (find_best_answer_window_span_in_range
              [0; 0; 1; 0; 0]%R [0; 0; 0; 1; 0]%R 1 4)
    as (score & s & e & Hres & Hse & He & _);
    try (unfold Py.len; simpl; lia).
  exists score, s, e. repeat split; assumption || apply Hse.
Defined.

(** ** What the windows cover *)

Section CoverageFacts.

Variable input_size : Z.
Variables cls_token pad_token sep_token : Z.
Variable has_position_ids : bool.

Let prepare_input' := prepare_input input_size cls_token pad_token sep_token has_position_ids.
Let prepare_window' := prepare_window input_size cls_token pad_token sep_token has_position_ids.
Let capacity' := context_capacity input_size.

(** The number of windows. *)
Let count (q ctx : list Z) : Z :=
  Py.range_len 0 (Z.max 1 (Py.len ctx - capacity' q)) (capacity' q / 2).

Lemma nth_window (q ctx : list Z) (ws : list (input_dict * Z * Z)) (k : nat) :
  prepare_input' q ctx = Ok ws -> 16 <= capacity' q -> Z.of_nat k < count q ctx ->
  exists w, nth_error ws k = Some w
            /\ window_start w = Z.of_nat k * (capacity' q / 2).
Proof.
  intros Hp Hc Hk. unfold prepare_input', count, capacity' in *.
  pose proof (half_capacity_pos input_size q Hc) as Hh.
  rewrite (prepare_input_ok input_size cls_token pad_token sep_token has_position_ids
             q ctx Hc) in Hp.
  injection Hp as <-. unfold window_starts. cbv zeta.
  exists (prepare_window input_size cls_token pad_token sep_token has_position_ids
            q ctx (context_capacity input_size q)
            (Z.of_nat k * (context_capacity input_size q / 2))).
  split.
  - rewrite !nth_error_map, nth_error_seq.
    destruct (Nat.ltb_spec k (Z.to_nat (Py.range_len 0
                (Z.max 1 (Py.len ctx - context_capacity input_size q))
                (context_capacity input_size q / 2)))) as [_|Hge].
    + reflexivity.
    + exfalso. lia.
  - rewrite prepare_window_eq; [reflexivity | nia | lia].
Qed.

Lemma count_bounds (q ctx : list Z) :
  16 <= capacity' q ->
  0 < count q ctx
  /\ (count q ctx - 1) * (capacity' q / 2) < Z.max 1 (Py.len ctx - capacity' q)
  /\ Z.max 1 (Py.len ctx - capacity' q) <= count q ctx * (capacity' q / 2).
Proof.
  intros Hc. pose proof (half_capacity_pos input_size q Hc) as Hh.
  pose proof (range_len_bounds (Z.max 1 (Py.len ctx - capacity' q)) (capacity' q / 2))
    as Hb.
  simpl in Hb. unfold count. fold capacity' in Hh. split; [|split]; apply Hb; lia.
Qed.

Lemma covered_by_nth (q : list Z) (ws : list (input_dict * Z * Z))
      (k : nat) (w : input_dict * Z * Z) (i : Z) :
  nth_error ws k = Some w ->
  window_start w <= i < window_stop input_size q w ->
  covered input_size q ws i = true.
Proof.
  intros Hk Hi. unfold covered. apply existsb_exists. exists w. split.
  - eapply nth_error_In. eassumption.
  - unfold window_has. apply andb_true_iff. split.
    + apply Z.leb_le. lia.
    + apply Z.ltb_lt. lia.
Qed.

(** X1: every context position except possibly the last [context_len // 2]
    is in some emitted window. *)
Theorem prepare_input_covers_all_but_tail (q ctx : list Z)
      (ws : list (input_dict * Z * Z)) (i : Z) :
  prepare_input' q ctx = Ok ws ->
  0 <= i < Py.len ctx - context_capacity input_size q / 2 ->
  covered input_size q ws i = true.
Proof.
  intros Hp Hi. fold capacity' in Hi.
  assert (Hc : 16 <= capacity' q).
  { destruct (Z_lt_ge_dec (capacity' q) 16) as [Hlt|Hge]; [|lia].
    subst prepare_input'.
    rewrite prepare_input_raise in Hp by assumption. discriminate. }
  pose proof (half_capacity_pos input_size q Hc) as Hh. fold capacity' in Hh.
  pose proof (Z.mul_div_le (capacity' q) 2 ltac:(lia)) as Hhalf.
  destruct (count_bounds q ctx Hc) as (Hpos & Hlow & Hup).
  set (h := capacity' q / 2) in *.
  pose proof (Z.mul_div_le i h ltac:(lia)) as Hq1.
  pose proof (Z.mul_succ_div_gt i h ltac:(lia)) as Hq2.
  assert (Hq0 : 0 <= i / h) by (apply Z.div_pos; lia).
  set (k := Z.min (i / h) (count q ctx - 1)).
  destruct (nth_window q ctx ws (Z.to_nat k) Hp Hc) as (w & Hk & Hstart); [lia|].
  fold h in Hstart. rewrite Z2Nat.id in Hstart by lia.
  destruct (window_stop_eq input_size cls_token pad_token sep_token has_position_ids
              q ctx ws (Z.to_nat k) w Hp Hk) as [H0 Hstop].
  fold capacity' in Hstop.
  apply (covered_by_nth q ws (Z.to_nat k) w i Hk).
  rewrite Hstop, Hstart. subst k.
  destruct (Z_le_gt_dec (i / h) (count q ctx - 1)) as [Hle|Hgt].
  - rewrite Z.min_l by lia. nia.
  - rewrite Z.min_r by lia. nia.
Qed.

(** X2: a context longer than the capacity always loses its last token: no
    emitted window reaches it. *)
Theorem prepare_input_never_reaches_last_token (q ctx : list Z)
      (ws : list (input_dict * Z * Z)) :
  prepare_input' q ctx = Ok ws ->
  context_capacity input_size q < Py.len ctx ->
  covered input_size q ws (Py.len ctx - 1) = false.
Proof.
  intros Hp Hlong. fold capacity' in Hlong.
  destruct (covered input_size q ws (Py.len ctx - 1)) eqn:E; [exfalso|reflexivity].
  unfold covered in E. apply existsb_exists in E. destruct E as (w & Hin & Hhas).
  destruct (In_nth_error _ _ Hin) as [k Hk].
  destruct (nth_prepare_input input_size cls_token pad_token sep_token has_position_ids
              q ctx ws k w Hp Hk) as (Hc & _ & Hb & _).
  destruct (window_stop_eq input_size cls_token pad_token sep_token has_position_ids
              q ctx ws k w Hp Hk) as [H0 Hstop].
  fold capacity' in Hc, Hb, Hstop.
  unfold window_has in Hhas. apply andb_true_iff in Hhas. destruct Hhas as [Hlo Hhi].
  apply Z.leb_le in Hlo. apply Z.ltb_lt in Hhi. rewrite Hstop in Hhi. lia.
Qed.

Lemma prepare_input_fits (q ctx : list Z) :
  16 <= context_capacity input_size q ->
  Py.len ctx <= context_capacity input_size q ->
  exists w,
    prepare_input' q ctx = Ok [w]
    /\ window_start w = 0
    /\ window_context_slice input_size q w = ctx
    /\ forall i, 0 <= i < Py.len ctx -> covered input_size q [w] i = true.
Proof.
  intros Hc Hfit. fold capacity' in Hc, Hfit.
  pose proof (half_capacity_pos input_size q Hc) as Hh. fold capacity' in Hh.
  pose proof (prepare_input_ok input_size cls_token pad_token sep_token
                has_position_ids q ctx Hc) as Hp.
  unfold window_starts in Hp. cbv zeta in Hp. fold capacity' in Hp.
  assert (Hcount : Py.range_len 0 (Z.max 1 (Py.len ctx - capacity' q)) (capacity' q / 2) = 1).
  { destruct (count_bounds q ctx Hc) as (Hpos & Hlow & Hup). unfold count in *.
    rewrite Z.max_l in * by lia. nia. }
  rewrite Hcount in Hp. simpl in Hp.
  exists (prepare_window' q ctx (capacity' q) 0).
  assert (Hslice : window_context_slice input_size q (prepare_window' q ctx (capacity' q) 0)
                   = ctx).
  { subst prepare_window' capacity'. rewrite window_context_slice_eq by lia.
    rewrite slice_firstn_skipn by lia. simpl skipn.
    apply firstn_all2. unfold Py.len in *. lia. }
  assert (Hstart : window_start (prepare_window' q ctx (capacity' q) 0) = 0).
  { subst prepare_window' capacity'. rewrite prepare_window_eq by lia. reflexivity. }
  split; [exact Hp|]. split; [exact Hstart|]. split; [exact Hslice|].
  intros i Hi. unfold covered, existsb, window_has, window_stop.
  rewrite Hslice, Hstart, orb_false_r. apply andb_true_iff. split.
  - apply Z.leb_le. lia.
  - apply Z.ltb_lt. lia.
Qed.

(** X3: a context that fits the capacity gives exactly one window, which
    starts at position 0 and holds the whole context. *)
Theorem prepare_input_short_context (q ctx : list Z) :
  16 <= context_capacity input_size q ->
  Py.len ctx <= context_capacity input_size q ->
  exists w,
    prepare_input' q ctx = Ok [w]
    /\ window_start w = 0
    /\ window_context_slice input_size q w = ctx
    /\ forall i, 0 <= i < Py.len ctx -> covered input_size q [w] i = true.
Proof. exact (prepare_input_fits q ctx). Qed.

End CoverageFacts.

Lemma prepare_input_covers_all_but_tail_witness :
  let q := repeat 7 21 in
  let ctx := map Z.of_nat (seq 1000 400) in
  covered 384 q [prepare_window 384 101 0 102 true q ctx 360 0] 219 = true.
Proof.
  intros q ctx.
  apply (prepare_input_covers_all_but_tail 384 101 0 102 true q ctx).
  - vm_compute. reflexivity.
  - vm_compute. split; [discriminate | reflexivity].
Defined.

Lemma prepare_input_never_reaches_last_token_witness :
  let q := repeat 7 21 in
  let ctx := map Z.of_nat (seq 1000 400) in
  covered 384 q [prepare_window 384 101 0 102 true q ctx 360 0] (Py.len ctx - 1) = false.
Proof.
  intros q ctx.
  apply (prepare_input_never_reaches_last_token 384 101 0 102 true q ctx).
  - vm_compute. reflexivity.
  - vm_compute. reflexivity.
Defined.

Lemma prepare_input_short_context_witness :
  exists w,
    prepare_input 384 101 0 102 true [2054; 2003] [1037; 4937; 2003; 2312] = Ok [w]
    /\ window_start w = 0.
Proof.
  destruct (prepare_input_short_context 384 101 0 102 true
              [2054; 2003] [1037; 4937; 2003; 2312])
    as (w & Hp & Hs & _).
  - vm_compute. discriminate.
  - vm_compute. discriminate.
  - exists w. split; assumption.
Defined.

Lemma find_best_answer_window_band_witness :
  exists (score : R) (s e : nat),
    find_best_answer_window (get_score [0; 0; 1; 0; 0]%R) (get_score [0; 0; 0; 1; 0]%R) 1 4
    = Ok (score, s, e)
    /\ (e - s <= 16)%nat.
Proof.
  destruct (find_best_answer_window_band [0; 0; 1; 0; 0]%R [0; 0; 0; 1; 0]%R 1 4)
    as (score & s & e & Hres & _ & Hband);
    try (unfold Py.len; simpl; lia).
  exists score, s, e. split; assumption.
Defined.

(** ** When the span search succeeds *)

Lemma slice_short (l : list R) (lo hi : Z) :
  0 <= lo -> 0 <= hi ->
  (hi <= lo \/ Py.len l < hi) ->
  Py.len (Py.slice l lo hi) < hi - lo \/ (hi <= lo /\ Py.slice l lo hi = []).
Proof.
  intros Hlo Hhi Hcase.
  pose proof (slice_length l lo hi Hlo Hhi) as Hlen.
  destruct (Z_le_gt_dec hi lo) as [Hle|Hgt].
  - right. split; [assumption|].
    assert (Hz : Py.len (Py.slice l lo hi) = 0) by (unfold Py.len in *; lia).
    unfold Py.len in Hz. destruct (Py.slice l lo hi); [reflexivity|simpl in Hz; lia].
  - left. unfold Py.len in *. lia.
Qed.

Lemma find_best_answer_window_cases (start_score end_score : list R) (cs ce : Z) :
  0 <= cs -> 0 <= ce ->
  (cs < ce /\ ce <= Py.len start_score /\ ce <= Py.len end_score
   /\ exists r, find_best_answer_window start_score end_score cs ce = Ok r)
  \/ (~ (cs < ce /\ ce <= Py.len start_score /\ ce <= Py.len end_score)
      /\ find_best_answer_window start_score end_score cs ce = Raise ValueError).
Proof.
  intros Hcs Hce.
  destruct (Z_lt_ge_dec cs ce) as [Hlt|Hge];
      [destruct (Z_le_gt_dec ce (Py.len start_score)) as [Hs|Hs];
       [destruct (Z_le_gt_dec ce (Py.len end_score)) as [He|He]|]|].
    - left. destruct (find_best_answer_window_spec start_score end_score cs ce)
        as (score & s & e & Hres & _); try lia.
      repeat split; try lia. eexists. exact Hres.
    - right. split; [lia|].
      unfold find_best_answer_window, Np.reshape.
      destruct (slice_short end_score cs ce) as [Hshort|[Hbad _]]; try lia.
      destruct (slice_nth start_score cs ce 0%nat) as [Hcol _]; try lia.
      unfold Py.len in *. rewrite Hcol.
      replace (ce - cs =? -1) with false by (symmetry; apply Z.eqb_neq; lia).
      replace (ce - cs =? Z.of_nat (Z.to_nat (ce - cs))) with true
        by (symmetry; apply Z.eqb_eq; lia).
      simpl rbind.
      replace (ce - cs =? Z.of_nat (length (Py.slice end_score cs ce))) with false
        by (symmetry; apply Z.eqb_neq; lia).
      reflexivity.
    - right. split; [lia|].
      unfold find_best_answer_window, Np.reshape.
      destruct (slice_short start_score cs ce) as [Hshort|[Hbad _]]; try lia.
      unfold Py.len in *.
      replace (ce - cs =? -1) with false by (symmetry; apply Z.eqb_neq; lia).
      replace (ce - cs =? Z.of_nat (length (Py.slice start_score cs ce))) with false
        by (symmetry; apply Z.eqb_neq; lia).
      reflexivity.
    - right. split; [lia|].
      unfold find_best_answer_window, Np.reshape.
      destruct (slice_short start_score cs ce) as [Hshort|[_ Hcol]]; try lia.
      { unfold Py.len in *. lia. }
      destruct (slice_short end_score cs ce) as [Hshort|[_ Hrow]]; try lia.
      { unfold Py.len in *. lia. }
      rewrite Hcol, Hrow. unfold Py.len. simpl length.
      destruct ((ce - cs =? -1) || (ce - cs =? Z.of_nat 0)); reflexivity.
Qed.

(** X12: for non-negative bounds, [find_best_answer_window] returns a span exactly
    when the context range is not empty and lies inside both score vectors;
    in every other case it raises [ValueError]. *)
Theorem find_best_answer_window_succeeds_iff
        (start_score end_score : list R) (cs ce : Z) :
  0 <= cs -> 0 <= ce ->
  ((exists r, find_best_answer_window start_score end_score cs ce = Ok r)
   <-> (cs < ce /\ ce <= Py.len start_score /\ ce <= Py.len end_score))
  /\ (find_best_answer_window start_score end_score cs ce = Raise ValueError
      <-> ~ (cs < ce /\ ce <= Py.len start_score /\ ce <= Py.len end_score)).
Proof.
  intros Hcs Hce.
  pose proof (find_best_answer_window_cases start_score end_score cs ce Hcs Hce)
    as Hcases.
  destruct Hcases as [(H1 & H2 & H3 & r & Hr)|(Hnot & Hraise)].
  - rewrite Hr. split; split.
    + intros _. repeat split; assumption.
    + intros _. eexists. reflexivity.
    + discriminate.
    + intros Hn. exfalso. apply Hn. repeat split; assumption.
  - rewrite Hraise. split; split.
    + intros [r Hr]. discriminate.
    + intros H. exfalso. now apply Hnot.
    + intros _. exact Hnot.
    + reflexivity.
Qed.

Lemma find_best_answer_window_succeeds_iff_witness :
  find_best_answer_window [0; 1]%R [1; 0]%R 1 1 = Raise ValueError
  <-> ~ (1 < 1 /\ 1 <= Py.len [0; 1]%R /\ 1 <= Py.len [1; 0]%R).
Proof.
  apply (find_best_answer_window_succeeds_iff [0; 1]%R [1; 0]%R 1 1); lia.
Defined.

(** ** More on the windows *)

Section WindowingMore.

Variable input_size : Z.
Variables cls_token pad_token sep_token : Z.
Variable has_position_ids : bool.

Let prepare_input' := prepare_input input_size cls_token pad_token sep_token has_position_ids.
Let prepare_window' := prepare_window input_size cls_token pad_token sep_token has_position_ids.
Let capacity' := context_capacity input_size.
Let pad' := pad input_size pad_token.

(** X4: the number of windows is [max(1, len(context_tokens) - context_len)]
    divided by the step [context_len // 2], rounded up; a single window is
    emitted exactly when the context has at most
    [context_len + context_len // 2] tokens. *)
Theorem prepare_input_window_count (q ctx : list Z) (ws : list (input_dict * Z * Z)) :
  prepare_input' q ctx = Ok ws ->
  let c := context_capacity input_size q in
  Z.of_nat (length ws) = (Z.max 1 (Py.len ctx - c) + c / 2 - 1) / (c / 2)
  /\ (length ws = 1%nat <-> Py.len ctx <= c + c / 2).
Proof.
  intros Hp c. fold capacity' in c.
  assert (Hc : 16 <= c).
  { destruct (Z_lt_ge_dec c 16) as [Hlt|Hge]; [|lia].
    unfold prepare_input' in Hp.
    rewrite prepare_input_raise in Hp by assumption. discriminate. }
  pose proof (half_capacity_pos input_size q Hc) as Hh. fold capacity' in Hh. fold c in Hh.
  unfold prepare_input' in Hp.
  rewrite (prepare_input_ok input_size cls_token pad_token sep_token has_position_ids
             q ctx Hc) in Hp.
  injection Hp as <-. unfold window_starts. cbv zeta. fold capacity'. fold c.
  rewrite !length_map, length_seq.
  pose proof (range_len_bounds (Z.max 1 (Py.len ctx - c)) (c / 2) ltac:(lia) ltac:(lia))
    as Hb. simpl in Hb. destruct Hb as (Hpos & Hlow & Hup).
  set (n := Py.range_len 0 (Z.max 1 (Py.len ctx - c)) (c / 2)) in *.
  assert (Hn : n = (Z.max 1 (Py.len ctx - c) + c / 2 - 1) / (c / 2)).
  { subst n. unfold Py.range_len.
    destruct (Z.ltb_spec 0 (c / 2)) as [_|?]; [|lia]. f_equal. lia. }
  split.
  - rewrite <- Hn. lia.
  - split; intros H.
    + assert (n = 1) by lia. nia.
    + assert (n = 1) by nia. lia.
Qed.

(** X5: when the model declares a [position_ids] input, every window carries the
    positions [0, 1, ..., input_size - 1]; otherwise it carries none. *)
Theorem prepare_input_position_ids (q ctx : list Z) (ws : list (input_dict * Z * Z))
        (w : input_dict * Z * Z) :
  prepare_input' q ctx = Ok ws -> In w ws ->
  position_ids (fst (fst w))
  = if has_position_ids then Some (map Z.of_nat (seq 0 (Z.to_nat input_size)))
    else None.
Proof.
  intros Hp Hin.
  destruct (In_prepare_input input_size cls_token pad_token sep_token has_position_ids
              q ctx ws w Hp Hin) as (Hc & k & _ & Hk & _ & Hw).
  pose proof (half_capacity_pos input_size q Hc) as Hh.
  assert (Hs : 0 <= window_start w) by nia.
  rewrite prepare_window_eq in Hw by lia.
  pose proof (part_len_le ctx (context_capacity input_size q) (window_start w) Hs
                ltac:(lia)) as Hpart.
  set (part := Py.slice ctx (window_start w)
                        (window_start w + context_capacity input_size q)) in *.
  set (ids := unpadded cls_token sep_token q part
              ++ Py.times pad_token (context_capacity input_size q - Py.len part)) in *.
  assert (Hlen : length ids = Z.to_nat input_size).
  { pose proof (unpadded_len cls_token sep_token q part) as Hu.
    subst ids. clear Hw. unfold context_capacity, Py.times, Py.len in *.
    rewrite length_app, repeat_length. lia. }
  assert (Hpos : position_ids (fst (fst w))
                 = if has_position_ids
                   then Some (map Z.of_nat (seq 0 (length ids))) else None)
    by (rewrite Hw; reflexivity).
  rewrite Hpos, Hlen. reflexivity.
Qed.

(** X6: what [postprocess] reads back from a yielded window is what
    [prepare_input] put in: the padding is the unused part of the capacity,
    and the range [len(question_tokens) + 2, input_size - padding - 1) of
    [input_ids] holds exactly the context slice of the window. *)
Theorem window_read_back (q ctx : list Z) (ws : list (input_dict * Z * Z))
        (w : input_dict * Z * Z) :
  prepare_input' q ctx = Ok ws -> In w ws ->
  let c := context_capacity input_size q in
  let context_slice := Py.slice ctx (window_start w) (window_start w + c) in
  0 <= window_padding w
  /\ window_padding w = c - Py.len context_slice
  /\ Py.slice (input_ids (fst (fst w))) (Py.len q + 2) (input_size - window_padding w - 1)
     = context_slice
  /\ (input_size - window_padding w - 1) - (Py.len q + 2) = Py.len context_slice.
Proof.
  intros Hp Hin c context_slice.
  destruct (In_prepare_input input_size cls_token pad_token sep_token has_position_ids
              q ctx ws w Hp Hin) as (Hc & k & _ & Hk & _ & Hw).
  pose proof (half_capacity_pos input_size q Hc) as Hh.
  assert (Hs : 0 <= window_start w) by nia.
  pose proof (part_len_le ctx c (window_start w) Hs ltac:(subst c; lia)) as Hpart.
  fold context_slice in Hpart.
  assert (Hpad : window_padding w = c - Py.len context_slice).
  { rewrite Hw at 1. rewrite prepare_window_eq by lia. reflexivity. }
  split; [lia|]. split; [exact Hpad|]. split.
  - pose proof (window_context_slice_eq input_size cls_token pad_token sep_token
                  has_position_ids q ctx (window_start w) Hs ltac:(lia)) as Hslice.
    rewrite <- Hw in Hslice. exact Hslice.
  - subst c. unfold context_capacity in *. lia.
Qed.

(** X7: [pad] never shortens its input: the three sequences are extended to
    [input_size] entries when they are shorter and returned as they are
    otherwise, with a pad number that is then zero or negative; padding the
    result again changes nothing. *)
Theorem pad_extends_only (ids mask types : list Z) :
  length mask = length ids -> length types = length ids ->
  let r := pad' ids mask types in
  let n := input_size - Py.len ids in
  snd r = n
  /\ fst (fst (fst r)) = ids ++ repeat pad_token (Z.to_nat n)
  /\ snd (fst (fst r)) = mask ++ repeat 0 (Z.to_nat n)
  /\ snd (fst r) = types ++ repeat 0 (Z.to_nat n)
  /\ Py.len (fst (fst (fst r))) = Z.max (Py.len ids) input_size
  /\ Py.len (snd (fst (fst r))) = Z.max (Py.len ids) input_size
  /\ Py.len (snd (fst r)) = Z.max (Py.len ids) input_size
  /\ pad' (fst (fst (fst r))) (snd (fst (fst r))) (snd (fst r)) = (fst r, Z.min 0 n).
Proof.
  intros Hm Ht r n. subst r pad'. unfold pad. fold n.
  destruct (Z.ltb_spec 0 n) as [Hpos|Hneg]; simpl fst; simpl snd.
  - unfold Py.times, Py.len in *. rewrite !length_app, !repeat_length, Hm, Ht.
    repeat split; try lia.
    replace (input_size - Z.of_nat (length ids + Z.to_nat n)) with 0 by lia.
    simpl. f_equal. lia.
  - replace (Z.to_nat n) with 0%nat by lia. simpl repeat. rewrite !app_nil_r.
    unfold Py.len in *. rewrite Hm, Ht. fold n.
    destruct (Z.ltb_spec 0 n) as [?|_]; [lia|].
    repeat split; try lia. f_equal. lia.
Qed.

End WindowingMore.

Lemma prepare_input_window_count_witness :
  let q := repeat 7 21 in
  let ctx := map Z.of_nat (seq 1000 400) in
  Z.of_nat (length [prepare_window 384 101 0 102 true q ctx 360 0])
  = (Z.max 1 (Py.len ctx - context_capacity 384 q) + context_capacity 384 q / 2 - 1)
    / (context_capacity 384 q / 2).
Proof.
  intros q ctx.
  refine (proj1 (prepare_input_window_count 384 101 0 102 true q ctx _ _)).
  vm_compute. reflexivity.
Defined.

Lemma prepare_input_position_ids_witness :
  let q := [2054; 2003] in
  let ctx := [1037; 4937; 2003; 2312] in
  position_ids (fst (fst (prepare_window 384 101 0 102 true q ctx 379 0)))
  = Some (map Z.of_nat (seq 0 (Z.to_nat 384))).
Proof.
  intros q ctx.
  refine (prepare_input_position_ids 384 101 0 102 true q ctx
            [prepare_window 384 101 0 102 true q ctx 379 0] _ _ _).
  - vm_compute. reflexivity.
  - left. reflexivity.
Defined.

Lemma window_read_back_witness :
  let q := [2054; 2003] in
  let ctx := [1037; 4937; 2003; 2312] in
  let w := prepare_window 384 101 0 102 true q ctx 379 0 in
  0 <= window_padding w.
Proof.
  intros q ctx w.
  refine (proj1 (window_read_back 384 101 0 102 true q ctx [w] w _ _)).
  - vm_compute. reflexivity.
  - left. reflexivity.
Defined.

Lemma pad_extends_only_witness :
  snd (pad 8 0 [101; 7; 102] [1; 1; 1] [0; 0; 1]) = 8 - Py.len [101; 7; 102].
Proof.
  refine (proj1 (pad_extends_only 8 0 [101; 7; 102] [1; 1; 1] [0; 0; 1] _ _));
    reflexivity.
Defined.

(** ** [load_context] and the empty-context guard *)

Lemma string_length_append (s1 s2 : string) :
  String.length (s1 ++ s2) = (String.length s1 + String.length s2)%nat.
Proof. induction s1 as [|c s1 IH]; simpl; [reflexivity | now rewrite IH]. Qed.

Lemma concat_newline_empty (l : list string) :
  String.length (String.concat newline l) = 0%nat <-> l = [] \/ l = [EmptyString].
Proof.
  split.
  - destruct l as [|x [|y l]]; simpl; intros H.
    + now left.
    + right. destruct x; [reflexivity | discriminate].
    + exfalso. rewrite string_length_append in H. simpl in H. lia.
  - intros [->| ->]; reflexivity.
Qed.

Section LoadContextFacts.

Variable urlparse : string -> string * string.
Variable get_paragraphs : list string -> list string.

Let is_url' := is_url urlparse.
Let load_context' := load_context urlparse get_paragraphs.

Lemma sort_sources_eq (sources input_urls paragraphs : list string) :
  sort_sources urlparse sources input_urls paragraphs
  = (input_urls ++ filter is_url' sources,
     paragraphs ++ filter (fun s => negb (is_url' s)) sources).
Proof.
  revert input_urls paragraphs.
  induction sources as [|source rest IH]; intros input_urls paragraphs; simpl.
  - now rewrite !app_nil_r.
  - unfold is_url' in *. destruct (is_url urlparse source); simpl; rewrite IH;
      now rewrite <- !app_assoc.
Qed.

Lemma load_context_eq (sources : list string) :
  load_context' sources
  = String.concat newline
      (filter (fun s => negb (is_url' s)) sources
       ++ get_paragraphs (filter is_url' sources)).
Proof.
  unfold load_context', load_context. rewrite sort_sources_eq. reflexivity.
Qed.

(** X19: the context holds the sources that are not URLs first, in the order
    given, and then what the reader finds at the URLs (asked for all at
    once, in the order given), one item per line: where a URL stands among
    the sources does not matter. *)
Theorem load_context_order (sources : list string) :
  load_context' sources
  = String.concat newline
      (filter (fun s => negb (is_url' s)) sources
       ++ get_paragraphs (filter is_url' sources)).
Proof. exact (load_context_eq sources). Qed.

(** X20: with sources that are all paragraphs (and a reader that finds nothing
    when given no URL), the context is empty, which is what the guard of
    [run_question_answering] tests, exactly when there is no source or the
    only source is the empty string: two empty paragraphs already give a
    context of one newline. *)
Theorem load_context_empty_iff (sources : list string) :
  (forall s, In s sources -> is_url' s = false) ->
  get_paragraphs [] = [] ->
  (String.length (load_context' sources) = 0%nat
   <-> sources = [] \/ sources = [EmptyString]).
Proof.
  intros Hpar Hreader. rewrite load_context_eq.
  assert (Hurls : filter is_url' sources = []).
  { induction sources as [|s l IH]; [reflexivity|]. simpl.
    rewrite (Hpar s (or_introl eq_refl)). apply IH. intros s' Hin. apply Hpar. now right. }
  assert (Hps : filter (fun s => negb (is_url' s)) sources = sources).
  { induction sources as [|s l IH]; [reflexivity|]. simpl.
    rewrite (Hpar s (or_introl eq_refl)). simpl. f_equal. apply IH.
    - intros s' Hin. apply Hpar. now right.
    - simpl in Hurls. rewrite (Hpar s (or_introl eq_refl)) in Hurls. exact Hurls. }
  rewrite Hurls, Hreader, Hps, app_nil_r. apply concat_newline_empty.
Qed.

End LoadContextFacts.

Lemma load_context_empty_iff_witness :
  String.length (load_context (fun s => (EmptyString, s)) (fun urls => urls)
                              [EmptyString; EmptyString]) = 0%nat
  <-> [EmptyString; EmptyString] = [] \/ [EmptyString; EmptyString] = [EmptyString].
Proof.
  apply (load_context_empty_iff (fun s => (EmptyString, s)) (fun urls => urls)).
  - intros s _. reflexivity.
  - reflexivity.
Defined.

(** ** Failures of a query, and the interactive loop *)

Section PipelineMore.

Variable input_size : Z.
Variables cls_token pad_token sep_token : Z.
Variable has_position_ids : bool.
Variable compiled_model : input_dict -> result (list R * list R).
Variable text_to_tokens : string -> list Z * list (Z * Z).
Variable lower : string -> string.

Let prepare_input' := prepare_input input_size cls_token pad_token sep_token has_position_ids.
Let prepare_window' := prepare_window input_size cls_token pad_token sep_token has_position_ids.
Let answer_loop' := answer_loop input_size compiled_model.
Let get_best_answer' :=
  get_best_answer input_size cls_token pad_token sep_token has_position_ids
                  compiled_model text_to_tokens lower.
Let answer_and_print' :=
  answer_and_print input_size cls_token pad_token sep_token has_position_ids
                   compiled_model text_to_tokens lower.
Let question_loop' :=
  question_loop input_size cls_token pad_token sep_token has_position_ids
                compiled_model text_to_tokens lower.
Let answer_each' :=
  answer_each input_size cls_token pad_token sep_token has_position_ids
              compiled_model text_to_tokens lower.

(** X14: a question that leaves fewer than 16 entries for the context makes
    [get_best_answer] raise the [RuntimeError] of [prepare_input] before the
    model is called: the world is left as it was. *)
Theorem get_best_answer_question_too_long (question context : string) (w0 : world) :
  input_size - Py.len (fst (text_to_tokens (lower question))) - 3 < 16 ->
  get_best_answer' question context w0 = (w0, Raise (RuntimeError too_long_msg)).
Proof.
  intros Hlong. unfold get_best_answer', get_best_answer.
  destruct (text_to_tokens (lower context)) as [context_tokens offsets].
  destruct (text_to_tokens (lower question)) as [question_tokens question_offsets].
  simpl in Hlong.
  rewrite prepare_input_raise by exact Hlong. reflexivity.
Qed.

Lemma answer_loop_app (q : list Z) (offsets : list (Z * Z))
      (pre rest : list (input_dict * Z * Z)) :
  forall (acc : list (R * Z * Z)) (w0 : world),
    answer_loop' q offsets (pre ++ rest) acc w0
    = match answer_loop' q offsets pre acc w0 with
      | (w1, Ok results) => answer_loop' q offsets rest results w1
      | (w1, Raise e) => (w1, Raise e)
      end.
Proof.
  induction pre as [|[[network_input padding] start_idx] pre IH]; intros acc w0.
  - reflexivity.
  - simpl. unfold bind, infer, lift.
    destruct (compiled_model network_input) as [out|e]; [|reflexivity].
    destruct (postprocess input_size (fst out) (snd out) q offsets padding start_idx)
      as [candidate|e]; [|reflexivity].
    apply IH.
Qed.

(** X15: a failure of the model is the failure of the query: when the model
    raises on a window after answering on the ones before it,
    [get_best_answer] raises the same exception; the windows after the
    failing one are never given to the model and no answer is returned. *)
Theorem get_best_answer_model_failure (question context : string)
        (pre post : list (input_dict * Z * Z)) (w : input_dict * Z * Z)
        (e : exn) (w0 : world) :
  let question_tokens := fst (text_to_tokens (lower question)) in
  let context_tokens := fst (text_to_tokens (lower context)) in
  let offsets := snd (text_to_tokens (lower context)) in
  prepare_input' question_tokens context_tokens = Ok (pre ++ w :: post) ->
  context_tokens <> [] ->
  length offsets = length context_tokens ->
  (forall w', In w' pre ->
     exists output_start output_end,
       compiled_model (fst (fst w')) = Ok (output_start, output_end)
       /\ Py.len output_start = input_size /\ Py.len output_end = input_size) ->
  compiled_model (fst (fst w)) = Raise e ->
  get_best_answer' question context w0
  = (mk_world (fed w0 ++ map (fun w' => fst (fst w')) pre ++ [fst (fst w)]) (stdout w0),
     Raise e).
Proof.
  intros question_tokens context_tokens offsets Hp Hne Hoff Hpre Hfail.
  unfold get_best_answer', get_best_answer.
  subst question_tokens context_tokens offsets.
  destruct (text_to_tokens (lower context)) as [context_tokens offsets].
  destruct (text_to_tokens (lower question)) as [question_tokens question_offsets].
  simpl in *. unfold prepare_input' in Hp. rewrite Hp.
  unfold bind at 1. unfold lift at 1. unfold bind at 1.
  fold answer_loop'. rewrite answer_loop_app.
  destruct (answer_loop_ok input_size compiled_model question_tokens offsets pre [] w0)
    as (candidates & _ & Hloop).
  { intros w' Hin. destruct (Hpre w' Hin) as (ls & le & Hm & Hls & Hle).
    assert (Hin' : In w' (pre ++ w :: post)) by (apply in_or_app; now left).
    destruct (In_nth_error _ _ Hin') as [k Hk].
    destruct (window_candidate_ok input_size cls_token pad_token sep_token
                has_position_ids compiled_model question_tokens context_tokens
                offsets (pre ++ w :: post) k w' ls le Hp Hk Hne Hoff Hm Hls Hle)
      as (candidate & Hpost & Hcand).
    exists (ls, le), candidate. repeat split; assumption. }
  unfold answer_loop'. rewrite Hloop.
  destruct w as [[network_input padding] start_idx]. simpl in *.
  unfold bind, infer. rewrite Hfail. simpl. now rewrite <- app_assoc.
Qed.

(** X16: a context without tokens is not rejected: [get_best_answer] builds one
    window that holds the question only, gives it to the model, and then
    fails with the [ValueError] of the span search on an empty range. *)
Theorem get_best_answer_no_context_tokens (question context : string)
        (out : list R * list R) (w0 : world) :
  let question_tokens := fst (text_to_tokens (lower question)) in
  let window :=
    prepare_window' question_tokens []
                    (context_capacity input_size question_tokens) 0 in
  fst (text_to_tokens (lower context)) = [] ->
  16 <= input_size - Py.len question_tokens - 3 ->
  compiled_model (fst (fst window)) = Ok out ->
  get_best_answer' question context w0
  = (mk_world (fed w0 ++ [fst (fst window)]) (stdout w0), Raise ValueError)
  /\ input_ids (fst (fst window))
     = [cls_token] ++ question_tokens ++ [sep_token; sep_token]
         ++ repeat pad_token (Z.to_nat (context_capacity input_size question_tokens)).
Proof.
  intros question_tokens window Hnone Hcap Hm.
  assert (Hc : 16 <= context_capacity input_size question_tokens) by exact Hcap.
  destruct (prepare_input_fits input_size cls_token pad_token sep_token
              has_position_ids question_tokens [] Hc)
    as (w & Hp & Hstart & _).
  { unfold Py.len. simpl. lia. }
  assert (Hw : w = window).
  { destruct (nth_prepare_input input_size cls_token pad_token sep_token
                has_position_ids question_tokens [] [w] 0%nat w Hp eq_refl)
      as (_ & _ & _ & Heq).
    rewrite Hstart in Heq. exact Heq. }
  subst w.
  assert (Hnil : forall lo hi, Py.slice (@nil Z) lo hi = []).
  { intros lo hi. unfold Py.slice. rewrite skipn_nil. apply firstn_nil. }
  assert (Hshape : window
                   = (fst (fst window),
                      context_capacity input_size question_tokens, 0)
                   /\ input_ids (fst (fst window))
                      = [cls_token] ++ question_tokens ++ [sep_token; sep_token]
                          ++ repeat pad_token
                               (Z.to_nat (context_capacity input_size question_tokens))).
  { subst window. unfold prepare_window'. rewrite prepare_window_eq by lia.
    rewrite Hnil. change (Py.len (@nil Z)) with 0. rewrite !Z.sub_0_r.
    split; [reflexivity|]. simpl. unfold unpadded, Py.times. simpl.
    rewrite <- !app_assoc. reflexivity. }
  destruct Hshape as [Hwin Hids]. split; [|exact Hids].
  unfold get_best_answer', get_best_answer.
  subst question_tokens.
  destruct (text_to_tokens (lower context)) as [context_tokens offsets].
  destruct (text_to_tokens (lower question)) as [question_tokens question_offsets].
  simpl in Hnone, Hcap, Hc, Hp, Hwin, Hm. subst context_tokens.
  unfold prepare_input' in Hp. rewrite Hp.
  unfold bind at 1. unfold lift at 1. unfold bind at 1.
  clearbody window. rewrite Hwin. simpl answer_loop.
  rewrite Hwin in Hm. simpl in Hm.
  unfold bind, infer, lift. rewrite Hm.
  unfold postprocess.
  destruct (find_best_answer_window_cases
              (get_score (fst out)) (get_score (snd out))
              (Py.len question_tokens + 2)
              (input_size - context_capacity input_size question_tokens - 1))
    as [(Hlt & _)|(_ & Hraise)].
  { unfold Py.len. lia. }
  { unfold context_capacity, Py.len. lia. }
  { exfalso. unfold context_capacity in Hlt. lia. }
  rewrite Hraise. reflexivity.
Qed.

(** X17: the interactive loop reads nothing after the first empty line: what
    follows it changes neither the answers nor the result. *)
Theorem question_loop_stops_at_empty_line (context : string)
        (questions rest : list string) (w0 : world) :
  Forall (fun question => question <> EmptyString) questions ->
  question_loop' context (questions ++ EmptyString :: rest) w0
  = question_loop' context (questions ++ [EmptyString]) w0.
Proof.
  intros Hq. revert w0.
  induction Hq as [|question questions Hne _ IH]; intros w0.
  - reflexivity.
  - simpl. apply String.eqb_neq in Hne. unfold question_loop' in *. simpl.
    rewrite Hne. unfold bind.
    destruct (answer_and_print _ _ _ _ _ _ _ _ question context w0) as [w1 [[]|e]];
      [apply IH | reflexivity].
Qed.

(** One turn of the loop on a line that is not empty, and of [answer_each]. *)
Lemma question_loop_cons (context question : string) (rest : list string)
      (w0 : world) :
  question <> EmptyString ->
  question_loop' context (question :: rest) w0
  = match answer_and_print' question context w0 with
    | (w1, Ok _) => question_loop' context rest w1
    | (w1, Raise e) => (w1, Raise e)
    end.
Proof.
  intros Hne. apply String.eqb_neq in Hne.
  unfold question_loop', answer_and_print'. simpl. rewrite Hne. reflexivity.
Qed.

Lemma answer_each_cons (context question : string) (rest : list string)
      (w0 : world) :
  answer_each' context (question :: rest) w0
  = match answer_and_print' question context w0 with
    | (w1, Ok _) => answer_each' context rest w1
    | (w1, Raise e) => (w1, Raise e)
    end.
Proof. reflexivity. Qed.

(** X18: the interactive loop ends normally only on an empty line. On input
    lines none of which is empty it answers the questions in order, as
    [answer_each] does, and ends with an exception: the one of the first
    question whose answering raises, after which no question is answered, or
    else, when every line was answered, the [EOFError] of [input()]. *)
Theorem question_loop_without_empty_line (context : string)
        (questions : list string) (w0 : world) :
  Forall (fun question => question <> EmptyString) questions ->
  question_loop' context questions w0
  = match answer_each' context questions w0 with
    | (w1, Ok _) => (w1, Raise EOFError)
    | (w1, Raise e) => (w1, Raise e)
    end.
Proof.
  intros Hq. revert w0.
  induction Hq as [|question questions Hne _ IH]; intros w0.
  - reflexivity.
  - rewrite question_loop_cons by exact Hne. rewrite answer_each_cons.
    destruct (answer_and_print' question context w0) as [w1 [[]|e]];
      [apply IH | reflexivity].
Qed.

End PipelineMore.

Lemma get_best_answer_question_too_long_witness :
  get_best_answer 10 101 0 102 true (zero_model 10) blank_aware_tokenizer (fun s => s)
                  "why" "it is" (mk_world [] [])
  = (mk_world [] [], Raise (RuntimeError too_long_msg)).
Proof.
  apply (get_best_answer_question_too_long 10 101 0 102 true (zero_model 10)
           blank_aware_tokenizer (fun s => s) "why" "it is" (mk_world [] [])).
  vm_compute. reflexivity.
Defined.

Lemma get_best_answer_model_failure_witness :
  let question_tokens := fst (char_tokenizer "q?") in
  get_best_answer 21 101 0 102 false failing_model char_tokenizer (fun s => s)
                  "q?" alphabet_context (mk_world [] [])
  = (mk_world [fst (fst (alphabet_window question_tokens 0));
               fst (fst (alphabet_window question_tokens 8))] [],
     Raise inference_failed).
Proof.
  intros question_tokens.
  apply (get_best_answer_model_failure 21 101 0 102 false failing_model
           char_tokenizer (fun s => s) "q?" alphabet_context
           [alphabet_window question_tokens 0]
           [alphabet_window question_tokens 16]
           (alphabet_window question_tokens 8) inference_failed (mk_world [] [])).
  - vm_compute. reflexivity.
  - discriminate.
  - reflexivity.
  - intros w' [<-|[]]. exists (repeat 0%R 21), (repeat 0%R 21).
    repeat split; reflexivity.
  - reflexivity.
Defined.

Lemma get_best_answer_no_context_tokens_witness :
  let w := prepare_window 384 101 0 102 true [2054; 2003] [] 379 0 in
  get_best_answer 384 101 0 102 true (zero_model 384) blank_aware_tokenizer
                  (fun s => s) "why" " " (mk_world [] [])
  = (mk_world ([] ++ [fst (fst w)]) [], Raise ValueError).
Proof.
  intros w.
  refine (proj1 (get_best_answer_no_context_tokens 384 101 0 102 true (zero_model 384)
                   blank_aware_tokenizer (fun s => s) "why" " "
                   (repeat 0%R 384, repeat 0%R 384) (mk_world [] []) _ _ _)).
  - reflexivity.
  - vm_compute. discriminate.
  - reflexivity.
Defined.

(** With [peaked_model], answering a two-character question on
    [alphabet_context] feeds the three windows and prints the answer. *)
Lemma peaked_answer_and_print (a b : ascii) (w0 : world) :
  let question := String a (String b EmptyString) in
  let question_tokens := fst (char_tokenizer question) in
  answer_and_print 21 101 0 102 false peaked_model char_tokenizer (fun s => s)
                   question alphabet_context w0
  = (mk_world (fed w0 ++ [fst (fst (alphabet_window question_tokens 0));
                          fst (fst (alphabet_window question_tokens 8));
                          fst (fst (alphabet_window question_tokens 16))])
              (stdout w0 ++ [PrintAnswer question "lmn" (peak_score 2)]),
     Ok tt).
Proof.
  intros question question_tokens.
  unfold answer_and_print, bind. subst question.
  rewrite peaked_run. reflexivity.
Qed.

Lemma question_loop_stops_at_empty_line_witness :
  let question_tokens := fst (char_tokenizer "q?") in
  question_loop 21 101 0 102 false peaked_model char_tokenizer (fun s => s)
                alphabet_context
                (["q?"%string] ++ EmptyString :: ["a?"%string]) (mk_world [] [])
  = (mk_world [fst (fst (alphabet_window question_tokens 0));
               fst (fst (alphabet_window question_tokens 8));
               fst (fst (alphabet_window question_tokens 16))]
              [PrintAnswer "q?" "lmn" (peak_score 2)],
     Ok tt).
Proof.
  intros question_tokens.
  rewrite (question_loop_stops_at_empty_line 21 101 0 102 false peaked_model
             char_tokenizer (fun s => s) alphabet_context
             ["q?"%string] ["a?"%string] (mk_world [] [])).
  - simpl app. rewrite question_loop_cons by discriminate.
    rewrite (peaked_answer_and_print "q" "?"). reflexivity.
  - constructor; [discriminate | constructor].
Defined.

Lemma question_loop_without_empty_line_witness :
  let first_tokens := fst (char_tokenizer "q?") in
  let second_tokens := fst (char_tokenizer "a?") in
  question_loop 21 101 0 102 false peaked_model char_tokenizer (fun s => s)
                alphabet_context ["q?"%string; "a?"%string] (mk_world [] [])
  = (mk_world [fst (fst (alphabet_window first_tokens 0));
               fst (fst (alphabet_window first_tokens 8));
               fst (fst (alphabet_window first_tokens 16));
               fst (fst (alphabet_window second_tokens 0));
               fst (fst (alphabet_window second_tokens 8));
               fst (fst (alphabet_window second_tokens 16))]
              [PrintAnswer "q?" "lmn" (peak_score 2);
               PrintAnswer "a?" "lmn" (peak_score 2)],
     Raise EOFError).
Proof.
  intros first_tokens second_tokens.
  rewrite (question_loop_without_empty_line 21 101 0 102 false peaked_model
             char_tokenizer (fun s => s) alphabet_context
             ["q?"%string; "a?"%string] (mk_world [] [])).
  - rewrite answer_each_cons. rewrite (peaked_answer_and_print "q" "?").
    rewrite answer_each_cons. rewrite (peaked_answer_and_print "a" "?").
    reflexivity.
  - constructor; [discriminate | constructor; [discriminate | constructor]].
Defined.

(** ** Vehicle recognition *)

(** X23: when the recognition model gives seven color scores and four type
    scores, [vehicle_recognition] returns one of the seven colors and one of
    the four types: the labels at the first largest score of each output. *)
Theorem vehicle_recognition_labels (image : Type)
        (prepare_image : image -> Z * Z -> result image)
        (compiled_model_re : image -> result (list R * list R))
        (input_size : Z * Z) (raw_image input_image_re : image)
        (predict_types predict_colors : list R) :
  prepare_image raw_image input_size = Ok input_image_re ->
  compiled_model_re input_image_re = Ok (predict_types, predict_colors) ->
  length predict_colors = 7%nat -> length predict_types = 4%nat ->
  exists (color type : nat) (attr_color attr_type : string),
    Vehicle.vehicle_recognition image prepare_image compiled_model_re
                                input_size raw_image
    = Ok (attr_color, attr_type)
    /\ first_max_index predict_colors color
    /\ first_max_index predict_types type
    /\ nth_error Vehicle.colors color = Some attr_color
    /\ nth_error Vehicle.types type = Some attr_type.
Proof.
  intros Hprep Hmodel Hc Ht.
  destruct (argmax_spec predict_colors) as (color & Hcolor & Hclt & Hcmax & Hcfirst).
  { intros ->. discriminate. }
  destruct (argmax_spec predict_types) as (type & Htype & Htlt & Htmax & Htfirst).
  { intros ->. discriminate. }
  destruct (index_in_range Vehicle.colors (Z.of_nat color)) as (attr_color & Hic & Hnc).
  { unfold Py.len. simpl. lia. }
  destruct (index_in_range Vehicle.types (Z.of_nat type)) as (attr_type & Hit & Hnt).
  { unfold Py.len. simpl. lia. }
  rewrite Nat2Z.id in Hnc, Hnt.
  exists color, type, attr_color, attr_type.
  split; [|repeat split; assumption].
  unfold Vehicle.vehicle_recognition. rewrite Hprep. simpl rbind.
  rewrite Hmodel. simpl rbind. rewrite Hcolor. simpl rbind. rewrite Hic. simpl rbind.
  rewrite Htype. simpl rbind. rewrite Hit. reflexivity.
Qed.

Lemma vehicle_recognition_labels_witness :
  exists (color type : nat) (attr_color attr_type : string),
    Vehicle.vehicle_recognition unit (fun im _ => Ok im)
        (fun _ => Ok (repeat 0%R 4, repeat 0%R 7)) (72, 72) tt
    = Ok (attr_color, attr_type)
    /\ first_max_index (repeat 0%R 7) color
    /\ first_max_index (repeat 0%R 4) type
    /\ nth_error Vehicle.colors color = Some attr_color
    /\ nth_error Vehicle.types type = Some attr_type.
Proof.
  apply (vehicle_recognition_labels unit (fun im _ => Ok im)
           (fun _ => Ok (repeat 0%R 4, repeat 0%R 7)) (72, 72) tt tt);
    reflexivity.
Defined.

